(** * Price-alert monitor of the finance agent

    Shallow embedding of the alert tools ([setPriceAlert], [listAlerts],
    [deleteAlert], tools.ts) and of the scheduled check
    ([Chat.checkPriceAlerts], server.ts), with the properties of the alert
    life cycle proved about them.

    Conventions of the embedding:
    - a JavaScript [number] is a binary64 float ([PrimFloat.float]); [>=] and
      [<=] are the IEEE comparisons and [!x] on a number is "zero or NaN";
    - the agent object is a record of its state, its transcript and the
      wake-ups requested through [this.schedule]; the URLs passed to [fetch]
      are kept in a trace;
    - [setState], [saveMessages] and [schedule] are the agents framework's
      operations and are taken to succeed; the Yahoo endpoint is an
      environment function from the requested URL to a reply;
    - template literals that interpolate numbers are kept as a list of
      pieces, numbers unrendered (number formatting is the host's).

    Beside the alert code the file embeds [Chat.executeTask] and the tools
    [scheduleTask], [getCryptoPrice] and [getPriceChange], the API keys of
    shared.ts, and the session as a sequence of tool calls and timer
    deliveries; replies of the market endpoints are parsed JSON values. *)

From Stdlib Require Import String Ascii List ZArith Bool Arith Lia PrimFloat.
From Stdlib Require Import DecimalString DecimalZ.
Import ListNotations.
Open Scope string_scope.
Set Warnings "-inexact-float".

(** ** JavaScript values used by the alert code *)

Module Js.

Definition number := float.
Bind Scope float_scope with number.

(** [a >= b] and [a <= b] on numbers: false as soon as one side is NaN. *)
Definition ge (a b : number) : bool := PrimFloat.leb b a.
Definition le (a b : number) : bool := PrimFloat.leb a b.

(** [!x] for a number: true for [0], [-0] and [NaN]. *)
Definition falsyNumber (x : number) : bool :=
  PrimFloat.is_zero x || PrimFloat.is_nan x.

(** [!v] for a value that is a number or [undefined]/[null]. *)
Definition falsy (v : option number) : bool :=
  match v with
  | None => true
  | Some x => falsyNumber x
  end.

(** Decimal rendering of an integral number, as [`${Date.now()}`] does. *)
Definition integerToString (z : Z) : string :=
  NilEmpty.string_of_int (Z.to_int z).

Definition upper_ascii (c : ascii) : ascii :=
  let n := nat_of_ascii c in
  if (97 <=? n)%nat && (n <=? 122)%nat then ascii_of_nat (n - 32) else c.

(** [String.prototype.toUpperCase], exact on ASCII text (ticker symbols). *)
Fixpoint toUpperCase (s : string) : string :=
  match s with
  | EmptyString => EmptyString
  | String c r => String (upper_ascii c) (toUpperCase r)
  end.

(** A template literal with its interpolated numbers left unrendered:
    [Num x] stands for [${x}] and [Fixed x d] for [${x.toFixed(d)}]. *)
Inductive Piece :=
| Lit (s : string)
| Num (x : number)
| Fixed (x : number) (digits : nat).

Definition Template := list Piece.

Definition LF : string := String (ascii_of_nat 10) EmptyString.

End Js.

Bind Scope float_scope with Js.number.

(** ** Data model (tools.ts, [PriceAlert] and [AgentState]) *)

Inductive Condition := above | below.

Definition Condition_text (c : Condition) : string :=
  match c with above => "above" | below => "below" end.

Record PriceAlert := mkAlert {
  id : string;
  symbol : string;
  targetPrice : Js.number;
  condition : Condition;
  createdAt : string;
  active : bool
}.

Record AgentState := mkState { alerts : list PriceAlert }.

Inductive Role := user | assistant.

(** A transcript entry; its [id] ([generateId()]) and [metadata.createdAt]
    are produced by the host and carry no alert information. *)
Record ChatMessage := mkMessage {
  role : Role;
  text : Js.Template
}.

(** A wake-up requested with [this.schedule(when, callback, payload)]. *)
Record Schedule := mkSchedule {
  when : Z;
  callback : string;
  payload : string
}.

(** The [Chat] agent as the alert code sees it. *)
Record Agent := mkAgent {
  state : option AgentState;
  messages : list ChatMessage;
  schedules : list Schedule;
  fetched : list string
}.

(** [initialState = { alerts: [] }], empty transcript, nothing scheduled. *)
Definition initialAgent : Agent :=
  mkAgent (Some (mkState [])) [] [] [].

(** [state?.alerts || []] *)
Definition alerts_of (st : option AgentState) : list PriceAlert :=
  match st with
  | Some s => alerts s
  | None => []
  end.

(** ** Framework operations on the agent *)

Definition setState (st : AgentState) (ag : Agent) : Agent :=
  mkAgent (Some st) (messages ag) (schedules ag) (fetched ag).

Definition saveMessages (ms : list ChatMessage) (ag : Agent) : Agent :=
  mkAgent (state ag) ms (schedules ag) (fetched ag).

Definition schedule (w : Z) (cb : string) (p : string) (ag : Agent) : Agent :=
  mkAgent (state ag) (messages ag) (schedules ag ++ [mkSchedule w cb p])
          (fetched ag).

(** ** The price feed *)

(** What the check extracts from the Yahoo chart endpoint: the request or
    the JSON parse throws (or the reply is not an object), or
    [data.chart?.result?.[0]?.meta?.regularMarketPrice] is read.  The
    endpoint reports prices as JSON numbers, so the value read is a number
    or is missing ([undefined] or [null]). *)
Inductive FeedReply :=
| FeedThrows
| FeedData (regularMarketPrice : option Js.number).

Definition Feed := string -> FeedReply.

Definition chartUrl (sym : string) : string :=
  "https://query1.finance.yahoo.com/v8/finance/chart/" ++ sym
  ++ "?interval=1d&range=1d".

Definition fetch (url : string) (ag : Agent) : Agent :=
  mkAgent (state ag) (messages ag) (schedules ag) (fetched ag ++ [url]).

(** ** [Chat.checkPriceAlerts] (server.ts) *)

(** [{ ...a, active: false }] *)
Definition deactivate (a : PriceAlert) : PriceAlert :=
  mkAlert (id a) (symbol a) (targetPrice a) (condition a) (createdAt a) false.

(** [a.id === alertId] *)
Definition hasId (alertId : string) (a : PriceAlert) : bool :=
  String.eqb (id a) alertId.

(** [a.id === alertId ? { ...a, active: false } : a] *)
Definition markIfId (alertId : string) (a : PriceAlert) : PriceAlert :=
  if hasId alertId a then deactivate a else a.

(** The [triggered] constant of the check. *)
Definition triggered (alert : PriceAlert) (currentPrice : Js.number) : bool :=
  match condition alert with
  | above => Js.ge currentPrice (targetPrice alert)
  | below => Js.le currentPrice (targetPrice alert)
  end.

(** Text of the notification appended to the transcript. *)
Definition alertText (alert : PriceAlert) (currentPrice : Js.number)
  : Js.Template :=
  [ Js.Lit ("🔔 **PRICE ALERT TRIGGERED!**" ++ Js.LF ++ Js.LF);
    Js.Lit (symbol alert);
    Js.Lit " has gone ";
    Js.Lit (Condition_text (condition alert));
    Js.Lit " $";
    Js.Num (targetPrice alert);
    Js.Lit ("!" ++ Js.LF ++ Js.LF ++ "Current price: $");
    Js.Fixed currentPrice 2 ].

Definition checkInterval : Z := 300.

Definition checkPriceAlerts (feed : Feed) (alertId : string) (ag : Agent)
  : Agent :=
  let alerts := alerts_of (state ag) in
  match find (hasId alertId) alerts with
  | None => ag
  | Some alert =>
    if negb (active alert) then ag
    else
      let url := chartUrl (symbol alert) in
      let ag1 := fetch url ag in
      match feed url with
      | FeedThrows => ag1            (* caught: console.error *)
      | FeedData currentPrice =>
        if Js.falsy currentPrice then ag1
        else
          match currentPrice with
          | None => ag1
          | Some price =>
            if triggered alert price then
              let updatedAlerts := map (markIfId alertId) alerts in
              let ag2 := setState (mkState updatedAlerts) ag1 in
              saveMessages
                (messages ag2 ++ [mkMessage assistant (alertText alert price)])
                ag2
            else
              schedule checkInterval "checkPriceAlerts" alertId ag1
          end
      end
  end.

(** ** The alert tools (tools.ts)

    Each tool body runs inside [try]/[catch]; with the framework operations
    succeeding nothing in the bodies throws, so the [catch] answers
    ("Error setting alert: ...") do not occur and are left out. *)

(** The two clock readings of a create: [Date.now()] in milliseconds and
    [new Date().toISOString()]. *)
Record Clock := mkClock {
  now : Z;
  isoString : string
}.

(** [`alert-${Date.now()}`] *)
Definition newAlertId (ms : Z) : string := "alert-" ++ Js.integerToString ms.

Record SetPriceAlertResult := mkSetResult {
  success : bool;
  message : Js.Template;
  alertId : string
}.

Definition setPriceAlert (clk : Clock) (symbol : string)
    (targetPrice : Js.number) (condition : Condition) (ag : Agent)
  : SetPriceAlertResult * Agent :=
  let upperSymbol := Js.toUpperCase symbol in
  let alerts := alerts_of (state ag) in
  let newAlert :=
    mkAlert (newAlertId (now clk)) upperSymbol targetPrice condition
            (isoString clk) true in
  let ag1 := setState (mkState (alerts ++ [newAlert])) ag in
  let ag2 := schedule 300 "checkPriceAlerts" (id newAlert) ag1 in
  (mkSetResult true
     [ Js.Lit ("✅ Alert set: Notify when " ++ upperSymbol ++ " goes "
               ++ Condition_text condition ++ " $");
       Js.Num targetPrice ]
     (id newAlert),
   ag2).

(** One entry of the listing returned by [listAlerts]. *)
Record AlertView := mkView {
  view_id : string;
  view_symbol : string;
  view_condition : Condition;
  view_targetPrice : Js.number;
  view_createdAt : string
}.

Definition viewOf (a : PriceAlert) : AlertView :=
  mkView (id a) (symbol a) (condition a) (targetPrice a) (createdAt a).

Inductive ListAlertsResult :=
| NoAlerts (msg : string)
| Listing (count : nat) (alerts : list AlertView).

Definition noAlertsText : string :=
  "No active price alerts. Use setPriceAlert to create one!".

Definition listAlerts (ag : Agent) : ListAlertsResult * Agent :=
  let alerts := alerts_of (state ag) in
  let activeAlerts := filter (fun a => active a) alerts in
  if (length activeAlerts =? 0)%nat then (NoAlerts noAlertsText, ag)
  else (Listing (length activeAlerts) (map viewOf activeAlerts), ag).

(** The alerts a listing result shows. *)
Definition listed (r : ListAlertsResult) : list AlertView :=
  match r with
  | NoAlerts _ => []
  | Listing _ l => l
  end.

Definition notFoundText (alertId : string) : string :=
  "Alert with ID " ++ alertId ++ " not found".

Definition deletedText (alertId : string) : string :=
  "✅ Alert " ++ alertId ++ " has been deleted".

Definition deleteAlert (alertId : string) (ag : Agent) : string * Agent :=
  let alerts := alerts_of (state ag) in
  let updatedAlerts :=
    filter (fun a => negb (hasId alertId a)) alerts in
  if (length alerts =? length updatedAlerts)%nat
  then (notFoundText alertId, ag)
  else (deletedText alertId, setState (mkState updatedAlerts) ag).

(** ** Histories of operations *)

Inductive Op :=
| CreateAlert (clk : Clock) (symbol : string) (targetPrice : Js.number)
              (condition : Condition)
| ListAlerts
| DeleteAlert (alertId : string)
| Wakeup (feed : Feed) (alertId : string).

Definition step (ag : Agent) (op : Op) : Agent :=
  match op with
  | CreateAlert clk s t c => snd (setPriceAlert clk s t c ag)
  | ListAlerts => snd (listAlerts ag)
  | DeleteAlert i => snd (deleteAlert i ag)
  | Wakeup feed i => checkPriceAlerts feed i ag
  end.

Definition run (ops : list Op) (ag : Agent) : Agent := fold_left step ops ag.

(** Clock readings ([Date.now()]) of the creates of a history. *)
Fixpoint createClocks (ops : list Op) : list Z :=
  match ops with
  | [] => []
  | CreateAlert clk _ _ _ :: r => now clk :: createClocks r
  | _ :: r => createClocks r
  end.

(** How the alerts of a collection may change: each is kept as it is,
    switched off, or removed; the order of those that stay is kept. *)
Inductive fades : list PriceAlert -> list PriceAlert -> Prop :=
| fd_nil : fades [] []
| fd_kept a before after :
    fades before after -> fades (a :: before) (a :: after)
| fd_off a before after :
    fades before after -> fades (a :: before) (deactivate a :: after)
| fd_removed a before after :
    fades before after -> fades (a :: before) after.

(** One operation: the alerts present before may fade, and alerts added
    are appended active. *)
Definition lifecycle (before after : list PriceAlert) : Prop :=
  exists survivors added,
    after = (survivors ++ added)%list
    /\ fades before survivors
    /\ Forall (fun a => active a = true) added.

(** Any number of operations: what is left of [base] comes first, faded,
    followed by alerts created since, whose ids are among [issued]. *)
Definition descends (base : list PriceAlert) (issued : list string)
    (current : list PriceAlert) : Prop :=
  exists survivors added,
    current = (survivors ++ added)%list
    /\ fades base survivors
    /\ Forall (fun a => In (id a) issued) added.

(** ** Wake-ups in flight *)

Definition wakes (alertId : string) (s : Schedule) : bool :=
  String.eqb (callback s) "checkPriceAlerts" && String.eqb (payload s) alertId.

Definition inFlight (alertId : string) (ag : Agent) : nat :=
  length (filter (wakes alertId) (schedules ag)).

Definition Schedule_eqb (s1 s2 : Schedule) : bool :=
  Z.eqb (when s1) (when s2) && String.eqb (callback s1) (callback s2)
  && String.eqb (payload s1) (payload s2).

Fixpoint removeFirst (s : Schedule) (l : list Schedule) : list Schedule :=
  match l with
  | [] => []
  | x :: r => if Schedule_eqb s x then r else x :: removeFirst s r
  end.

(** The framework's timer delivering the pending wake-up [s] of the
    check: [s] leaves the pending wake-ups and the callback runs on its
    payload. *)
Definition onWakeup (feed : Feed) (s : Schedule) (ag : Agent) : Agent :=
  checkPriceAlerts feed (payload s)
    (mkAgent (state ag) (messages ag) (removeFirst s (schedules ag))
             (fetched ag)).

(** ** Vocabulary of the statements *)

Definition Condition_eqb (c1 c2 : Condition) : bool :=
  match c1, c2 with
  | above, above | below, below => true
  | _, _ => false
  end.

(** Sample data: one alert on XYZ, the agent holding it with its first
    wake-up pending, and a feed quoting a fixed price. *)
Definition sampleId : string := "alert-1700000000000".

Definition sampleAlert (c : Condition) (target : Js.number) : PriceAlert :=
  mkAlert sampleId "XYZ" target c "2023-11-14T22:13:20.000Z" true.

Definition holding (a : PriceAlert) : Agent :=
  mkAgent (Some (mkState [a])) [] [mkSchedule 300 "checkPriceAlerts" (id a)] [].

Definition quote (p : Js.number) : Feed := fun _ => FeedData (Some p).

Definition feedDown : Feed := fun _ => FeedThrows.

(** Every id in the collection was issued by a create that read one of
    [clocks]. *)
Definition idsFrom (clocks : list Z) (ag : Agent) : Prop :=
  forall a, In a (alerts_of (state ag)) -> In (id a) (map newAlertId clocks).

(** No active alert carries [alertId]. *)
Definition resolved (alertId : string) (ag : Agent) : Prop :=
  forall a, In a (alerts_of (state ag)) -> id a = alertId -> active a = false.

Definition sampleClock : Clock :=
  mkClock 1700000000000 "2023-11-14T22:13:20.000Z".

Definition laterClock : Clock :=
  mkClock 1700000000001 "2023-11-14T22:13:20.001Z".

(** ** Reading the branches of the check *)

(** The agent after a triggering check of [alert] at [price]. *)
Definition notified (alertId : string) (alert : PriceAlert)
    (price : Js.number) (ag : Agent) : Agent :=
  mkAgent (Some (mkState (map (markIfId alertId) (alerts_of (state ag)))))
          (messages ag ++ [mkMessage assistant (alertText alert price)])
          (schedules ag)
          (fetched ag ++ [chartUrl (symbol alert)]).

(** The agent after a check that found the target not reached. *)
Definition rescheduled (alertId : string) (alert : PriceAlert) (ag : Agent)
  : Agent :=
  mkAgent (state ag) (messages ag)
          (schedules ag ++ [mkSchedule checkInterval "checkPriceAlerts" alertId])
          (fetched ag ++ [chartUrl (symbol alert)]).

(** The four ways a check ends. *)
Inductive CheckOutcome (feed : Feed) (alertId : string) (ag : Agent)
  : Agent -> Prop :=
| co_stale :
    (find (hasId alertId) (alerts_of (state ag)) = None
     \/ exists alert, find (hasId alertId) (alerts_of (state ag)) = Some alert
                      /\ active alert = false) ->
    CheckOutcome feed alertId ag ag
| co_no_price alert :
    find (hasId alertId) (alerts_of (state ag)) = Some alert ->
    active alert = true ->
    (feed (chartUrl (symbol alert)) = FeedThrows
     \/ exists v, feed (chartUrl (symbol alert)) = FeedData v
                  /\ Js.falsy v = true) ->
    CheckOutcome feed alertId ag (fetch (chartUrl (symbol alert)) ag)
| co_triggered alert price :
    find (hasId alertId) (alerts_of (state ag)) = Some alert ->
    active alert = true ->
    feed (chartUrl (symbol alert)) = FeedData (Some price) ->
    Js.falsyNumber price = false ->
    triggered alert price = true ->
    CheckOutcome feed alertId ag (notified alertId alert price ag)
| co_rescheduled alert price :
    find (hasId alertId) (alerts_of (state ag)) = Some alert ->
    active alert = true ->
    feed (chartUrl (symbol alert)) = FeedData (Some price) ->
    Js.falsyNumber price = false ->
    triggered alert price = false ->
    CheckOutcome feed alertId ag (rescheduled alertId alert ag).

(** ** Scheduled tasks ([Chat.executeTask], server.ts; [scheduleTask], tools.ts) *)

(** [executeTask(description)]: one user entry is appended to the
    transcript. *)
Definition executeTask (description : string) (ag : Agent) : Agent :=
  saveMessages
    (messages ag
       ++ [mkMessage user [Js.Lit ("Running scheduled task: " ++ description)]])
    ag.

(** The [when] argument of [scheduleTask] (the framework's schedule
    schema): a date (epoch milliseconds), a delay in seconds, a cron
    expression, or no schedule. *)
Inductive When :=
| NoSchedule
| Scheduled (date : Z)
| Delayed (delayInSeconds : Js.number)
| Cron (cron : string).

(** The [input] handed to [agent.schedule]. *)
Inductive ScheduleInput :=
| AtDate (date : Z)
| AfterSeconds (seconds : Js.number)
| OnCron (cron : string).

Definition When_type (w : When) : string :=
  match w with
  | NoSchedule => "no-schedule"
  | Scheduled _ => "scheduled"
  | Delayed _ => "delayed"
  | Cron _ => "cron"
  end.

(** A wake-up requested by [scheduleTask].  Its time is a date, a possibly
    fractional delay or a cron expression, so these requests are kept in a
    table of their own, beside the alert wake-ups of [schedules]. *)
Record Task := mkTask {
  task_input : ScheduleInput;
  task_callback : string;
  task_payload : string
}.

Record Session := mkSession {
  agent : Agent;
  tasks : list Task
}.

Definition startSession : Session := mkSession initialAgent [].

(** The answer of [scheduleTask]: "Not a valid schedule input", or
    [`Task scheduled for type "${when.type}" : ${input}`] kept as its two
    interpolated values. *)
Inductive ScheduleTaskResult :=
| NotValidInput (msg : string)
| TaskScheduled (type : string) (input : ScheduleInput).

Definition scheduleTask (when : When) (description : string) (se : Session)
  : ScheduleTaskResult * Session :=
  match when with
  | NoSchedule => (NotValidInput "Not a valid schedule input", se)
  | Scheduled date =>
      (TaskScheduled (When_type when) (AtDate date),
       mkSession (agent se)
         (tasks se ++ [mkTask (AtDate date) "executeTask" description]))
  | Delayed delayInSeconds =>
      (TaskScheduled (When_type when) (AfterSeconds delayInSeconds),
       mkSession (agent se)
         (tasks se
            ++ [mkTask (AfterSeconds delayInSeconds) "executeTask" description]))
  | Cron cron =>
      (TaskScheduled (When_type when) (OnCron cron),
       mkSession (agent se)
         (tasks se ++ [mkTask (OnCron cron) "executeTask" description]))
  end.

(** ** The session over time *)

(** What can happen to a session: the four tools that act on it are
    called, the timer delivers a pending alert wake-up (the feed answering
    as [feed] at that moment), or the timer delivers the [k]-th pending
    task. *)
Inductive Event :=
| EvSetPriceAlert (clk : Clock) (symbol : string) (targetPrice : Js.number)
                  (condition : Condition)
| EvListAlerts
| EvDeleteAlert (alertId : string)
| EvScheduleTask (when : When) (description : string)
| EvWakeup (feed : Feed) (s : Schedule)
| EvTask (k : nat).

Definition pendingWakeup (s : Schedule) (ag : Agent) : bool :=
  existsb (Schedule_eqb s) (schedules ag)
  && String.eqb (callback s) "checkPriceAlerts".

Fixpoint dropNth {A} (k : nat) (l : list A) : list A :=
  match l, k with
  | [], _ => []
  | _ :: r, O => r
  | x :: r, S k' => x :: dropNth k' r
  end.

(** A delivered one-time task leaves the table, a cron task stays. *)
Definition afterDelivery (k : nat) (t : Task) (l : list Task) : list Task :=
  match task_input t with
  | OnCron _ => l
  | _ => dropNth k l
  end.

Definition handle (se : Session) (e : Event) : Session :=
  match e with
  | EvSetPriceAlert clk s t c =>
      mkSession (snd (setPriceAlert clk s t c (agent se))) (tasks se)
  | EvListAlerts => mkSession (snd (listAlerts (agent se))) (tasks se)
  | EvDeleteAlert i => mkSession (snd (deleteAlert i (agent se))) (tasks se)
  | EvScheduleTask w d => snd (scheduleTask w d se)
  | EvWakeup feed s =>
      if pendingWakeup s (agent se)
      then mkSession (onWakeup feed s (agent se)) (tasks se)
      else se
  | EvTask k =>
      match nth_error (tasks se) k with
      | Some t =>
          mkSession (executeTask (task_payload t) (agent se))
                    (afterDelivery k t (tasks se))
      | None => se
      end
  end.

Definition play (evs : list Event) (se : Session) : Session :=
  fold_left handle evs se.

(** Clock readings of the creates among the events. *)
Fixpoint eventClocks (evs : list Event) : list Z :=
  match evs with
  | [] => []
  | EvSetPriceAlert clk _ _ _ :: r => now clk :: eventClocks r
  | _ :: r => eventClocks r
  end.

(** Alert ids deleted by the events. *)
Fixpoint deletedIds (evs : list Event) : list string :=
  match evs with
  | [] => []
  | EvDeleteAlert i :: r => i :: deletedIds r
  | _ :: r => deletedIds r
  end.

Definition isAssistant (m : ChatMessage) : bool :=
  match role m with assistant => true | user => false end.

(** Notifications in the transcript, and alerts still active. *)
Definition notificationCount (ag : Agent) : nat :=
  length (filter isAssistant (messages ag)).

Definition activeCount (ag : Agent) : nat :=
  length (filter (fun a => active a) (alerts_of (state ag))).

(** At most one wake-up in flight per alert, and only for issued ids. *)
Definition wakeupsBounded (issued : list Z) (ag : Agent) : Prop :=
  forall x,
    inFlight x ag <= 1
    /\ (0 < inFlight x ag -> In x (map newAlertId issued)).

(** ** Strings and parsed JSON as the market-data tools use them *)

Module JsText.

Definition lower_ascii (c : ascii) : ascii :=
  let n := nat_of_ascii c in
  if (65 <=? n)%nat && (n <=? 90)%nat then ascii_of_nat (n + 32) else c.

(** [String.prototype.toLowerCase], exact on ASCII text. *)
Fixpoint toLowerCase (s : string) : string :=
  match s with
  | EmptyString => EmptyString
  | String c r => String (lower_ascii c) (toLowerCase r)
  end.

(** The ASCII white space and line terminators that [trim] strips: tab,
    line feed, vertical tab, form feed, carriage return and space. *)
Definition isSpace (c : ascii) : bool :=
  let n := nat_of_ascii c in
  ((9 <=? n)%nat && (n <=? 13)%nat) || (n =? 32)%nat.

Fixpoint trimStart (s : string) : string :=
  match s with
  | EmptyString => EmptyString
  | String c r => if isSpace c then trimStart r else s
  end.

Fixpoint trimEnd (s : string) : string :=
  match s with
  | EmptyString => EmptyString
  | String c r =>
      match trimEnd r with
      | EmptyString => if isSpace c then EmptyString else String c EmptyString
      | kept => String c kept
      end
  end.

(** [String.prototype.trim], exact on ASCII text. *)
Definition trim (s : string) : string := trimEnd (trimStart s).

(** [!s] for a string. *)
Definition isEmpty (s : string) : bool :=
  match s with EmptyString => true | _ => false end.

Fixpoint allSpaces (s : string) : bool :=
  match s with
  | EmptyString => true
  | String c r => isSpace c && allSpaces r
  end.

End JsText.

Module Json.

Set Warnings "-register-all".

(** A value produced by [response.json()]. *)
Inductive value :=
| Null
| Bool (b : bool)
| Number (x : Js.number)
| Str (s : string)
| Array (items : list value)
| Object (fields : list (string * value)).

(** Own property of a parsed object; of duplicate keys the last one is the
    one [JSON.parse] keeps. *)
Fixpoint lookup (name : string) (fields : list (string * value))
  : option value :=
  match fields with
  | [] => None
  | (k, v) :: r =>
      match lookup name r with
      | Some later => Some later
      | None => if String.eqb k name then Some v else None
      end
  end.

(** [v.name] for a value that is not [null], and a name that no built-in
    prototype defines (as are all the names the tools read): the own
    property of an object, [undefined] on anything else. *)
Definition member (name : string) (v : value) : option value :=
  match v with
  | Object fields => lookup name fields
  | _ => None
  end.

(** [v?.name]: [undefined] on [undefined] and [null]. *)
Definition optMember (name : string) (v : option value) : option value :=
  match v with
  | None | Some Null => None
  | Some x => member name x
  end.

(** [v?.[0]]: first element of an array, first character of a string, own
    property "0" of an object. *)
Definition optFirst (v : option value) : option value :=
  match v with
  | None | Some Null => None
  | Some (Array items) => nth_error items 0
  | Some (Str (String c _)) => Some (Str (String c EmptyString))
  | Some (Object fields) => lookup "0" fields
  | Some _ => None
  end.

(** Truthiness of a value that may be [undefined]. *)
Definition truthy (v : option value) : bool :=
  match v with
  | None | Some Null => false
  | Some (Bool b) => b
  | Some (Number x) => negb (Js.falsyNumber x)
  | Some (Str s) => negb (JsText.isEmpty s)
  | Some (Array _) | Some (Object _) => true
  end.

Definition isNull (v : value) : bool :=
  match v with Null => true | _ => false end.

End Json.

(** ** HTTP as the tools see it *)

Record Request := mkRequest {
  req_url : string;
  req_headers : list (string * string)
}.

(** [response.json()] rejects, or yields a value. *)
Inductive Body :=
| NotJson
| Parsed (data : Json.value).

Record Response := mkResponse {
  ok : bool;
  status : Z;
  body : Body
}.

(** [fetch] rejects, or resolves to a response. *)
Inductive Reply :=
| Rejected
| Resolved (response : Response).

Definition Http := Request -> Reply.

(** ** API keys (shared.ts, and their setting in [Chat.onChatMessage]) *)

Record ApiConfig := mkApiConfig {
  alpacaApiKey : string;
  alpacaSecretKey : string
}.

(** The exported [apiConfig] as the module is loaded. *)
Definition apiConfig : ApiConfig := mkApiConfig "" "".

Definition setApiConfig (config : ApiConfig) (current : ApiConfig)
  : ApiConfig :=
  mkApiConfig (alpacaApiKey config) (alpacaSecretKey config).

(** The two secrets of the worker's environment, each possibly unset. *)
Record Env := mkEnv {
  ALPACA_API_KEY : option string;
  ALPACA_SECRET_KEY : option string
}.

(** [secret || ""] *)
Definition orEmpty (secret : option string) : string :=
  match secret with
  | Some s => if JsText.isEmpty s then "" else s
  | None => ""
  end.

(** The first statement of [onChatMessage]. *)
Definition configureFromEnv (env : Env) (current : ApiConfig) : ApiConfig :=
  setApiConfig
    (mkApiConfig (orEmpty (ALPACA_API_KEY env)) (orEmpty (ALPACA_SECRET_KEY env)))
    current.

Definition alpacaHeaders (apiKey secretKey : string)
  : list (string * string) :=
  [("APCA-API-KEY-ID", apiKey); ("APCA-API-SECRET-KEY", secretKey)].

(** ** [getCryptoPrice] (tools.ts) *)

(** The own keys of the [map] literal. *)
Definition cryptoNames : list (string * string) :=
  [("bitcoin", "BTC/USD"); ("btc", "BTC/USD");
   ("ethereum", "ETH/USD"); ("eth", "ETH/USD");
   ("solana", "SOL/USD"); ("sol", "SOL/USD");
   ("dogecoin", "DOGE/USD"); ("doge", "DOGE/USD");
   ("cardano", "ADA/USD"); ("ada", "ADA/USD");
   ("ripple", "XRP/USD"); ("xrp", "XRP/USD")].

Fixpoint ownName (name : string) (table : list (string * string))
  : option string :=
  match table with
  | [] => None
  | (k, v) :: r => if String.eqb k name then Some v else ownName name r
  end.

(** What [symbol] holds: a ticker string or, for the two lower-case names
    that the object literal inherits from [Object.prototype], the inherited
    value ([map["constructor"]] is the function [Object],
    [map["__proto__"]] is [Object.prototype]; both are truthy). *)
Inductive CryptoSymbol :=
| Ticker (s : string)
| ObjectConstructor
| ObjectPrototype.

(** [coin.toLowerCase().trim()] *)
Definition cleanName (coin : string) : string :=
  JsText.trim (JsText.toLowerCase coin).

(** [map[cleanName] || `${cleanName.toUpperCase()}/USD`] *)
Definition cryptoSymbol (coin : string) : CryptoSymbol :=
  let name := cleanName coin in
  match ownName name cryptoNames with
  | Some ticker => Ticker ticker
  | None =>
      if String.eqb name "constructor" then ObjectConstructor
      else if String.eqb name "__proto__" then ObjectPrototype
      else Ticker (Js.toUpperCase name ++ "/USD")
  end.

(** [`${symbol}`], also the property key [symbol] stands for. *)
Definition symbolText (symbol : CryptoSymbol) : string :=
  match symbol with
  | Ticker s => s
  | ObjectConstructor => "function Object() { [native code] }"
  | ObjectPrototype => "[object Object]"
  end.

Definition cryptoUrl (symbol : CryptoSymbol) : string :=
  "https://data.alpaca.markets/v1beta3/crypto/us/latest/trades?symbols="
  ++ symbolText symbol.

Inductive CryptoResult :=
| CryptoText (answer : string)
| CryptoQuote (coin : CryptoSymbol) (price : Js.Template) (status : string)
              (volume : option Json.value)
| CryptoCaught.
(* [CryptoCaught]: the answer [`Error fetching crypto price: ${error}`]. *)

(** What the tool answers once [fetch] has settled. *)
Definition cryptoAnswer (coin : string) (symbol : CryptoSymbol)
    (reply : Reply) : CryptoResult :=
  match reply with
  | Rejected => CryptoCaught
  | Resolved response =>
      if negb (ok response)
      then CryptoText ("Could not find crypto: " ++ coin
                       ++ ". Try standard symbols like BTC, ETH, SOL.")
      else
        match body response with
        | NotJson => CryptoCaught
        | Parsed Json.Null => CryptoCaught
        | Parsed data =>
            let trade :=
              Json.optMember (symbolText symbol) (Json.member "trades" data) in
            if negb (Json.truthy trade)
            then CryptoText ("Could not find price for " ++ symbolText symbol
                             ++ ". Try: bitcoin, ethereum, solana.")
            else
              match trade with
              | None => CryptoCaught
              | Some t =>
                  match Json.member "p" t with
                  | Some (Json.Number price) =>
                      CryptoQuote symbol [Js.Lit "$"; Js.Fixed price 2]
                        "Live Price ⚡️" (Json.member "s" t)
                  | _ => CryptoCaught
                  end
              end
        end
  end.

(** The tool's answer and the requests it made. *)
Definition getCryptoPrice (config : ApiConfig) (http : Http) (coin : string)
  : CryptoResult * list Request :=
  let symbol := cryptoSymbol coin in
  let apiKey := alpacaApiKey config in
  let secretKey := alpacaSecretKey config in
  if JsText.isEmpty apiKey || JsText.isEmpty secretKey
  then (CryptoText "Alpaca API keys not configured.", [])
  else
    let request := mkRequest (cryptoUrl symbol) (alpacaHeaders apiKey secretKey) in
    (cryptoAnswer coin symbol (http request), [request]).

(** ** [getPriceChange] (tools.ts) *)

Inductive Period := P1d | P5d | P1mo | P3mo | P6mo | P1y.

Definition Period_text (p : Period) : string :=
  match p with
  | P1d => "1d" | P5d => "5d" | P1mo => "1mo"
  | P3mo => "3mo" | P6mo => "6mo" | P1y => "1y"
  end.

Definition rangeUrl (upperSymbol : string) (period : Period) : string :=
  "https://query1.finance.yahoo.com/v8/finance/chart/" ++ upperSymbol
  ++ "?interval=1d&range=" ++ Period_text period.

Record PriceChange := mkPriceChange {
  pc_symbol : string;
  pc_period : Period;
  pc_startPrice : Js.Template;
  pc_currentPrice : Js.Template;
  pc_change : Js.Template;
  pc_changePercent : Js.Template;
  pc_performance : string
}.

Inductive PriceChangeResult :=
| PriceChangeText (answer : string)
| PriceChangeReport (report : PriceChange)
| PriceChangeCaught.
(* [PriceChangeCaught]: the answer [`Error getting price change: ${error}`]. *)

(** [data.chart?.result?.[0]] *)
Definition firstResult (data : Json.value) : option Json.value :=
  Json.optFirst (Json.optMember "result" (Json.member "chart" data)).

(** The report built from the first valid close and the market price. *)
Definition changeReport (upperSymbol : string) (period : Period)
    (startPrice currentPrice : Js.number) : PriceChange :=
  let change := PrimFloat.sub currentPrice startPrice in
  let changePercent :=
    PrimFloat.mul (PrimFloat.div change startPrice) 100 in
  mkPriceChange upperSymbol period
    [Js.Fixed startPrice 2]
    [Js.Fixed currentPrice 2]
    [Js.Fixed change 2]
    [Js.Fixed changePercent 2; Js.Lit "%"]
    (if Js.ge changePercent 0 then "📈 Positive" else "📉 Negative").

(** [data.chart?.result?.[0]?.indicators?.quote?.[0]?.close] *)
Definition closesOf (data : Json.value) : option Json.value :=
  Json.optMember "close"
    (Json.optFirst
       (Json.optMember "quote"
          (Json.optMember "indicators" (firstResult data)))).

(** [data.chart?.result?.[0]?.meta] *)
Definition metaOf (data : Json.value) : option Json.value :=
  Json.optMember "meta" (firstResult data).

(** What the tool answers once [fetch] has settled. *)
Definition priceChangeAnswer (upperSymbol : string) (period : Period)
    (reply : Reply) : PriceChangeResult :=
  match reply with
  | Rejected => PriceChangeCaught
  | Resolved response =>
      match body response with
      | NotJson => PriceChangeCaught
      | Parsed Json.Null => PriceChangeCaught
      | Parsed data =>
          if Json.truthy (Json.optMember "error" (Json.member "chart" data))
          then PriceChangeText ("Could not find stock: " ++ upperSymbol)
          else
            let closes := closesOf data in
            let meta := metaOf data in
            let noData :=
              PriceChangeText ("No data available for " ++ upperSymbol) in
            match closes with
            | None | Some Json.Null => noData
            | Some (Json.Array items) =>
                match items with
                | [] => noData
                | _ =>
                    let validCloses :=
                      filter (fun c => negb (Json.isNull c)) items in
                    match meta with
                    | None | Some Json.Null => PriceChangeCaught
                    | Some m =>
                        match nth_error validCloses 0,
                              Json.member "regularMarketPrice" m with
                        | Some (Json.Number startPrice),
                          Some (Json.Number currentPrice) =>
                            PriceChangeReport
                              (changeReport upperSymbol period
                                 startPrice currentPrice)
                        | _, _ => PriceChangeCaught
                        end
                    end
                end
            | Some (Json.Object fields) =>
                match Json.lookup "length" fields with
                | Some (Json.Number n) =>
                    if PrimFloat.eqb n 0 then noData else PriceChangeCaught
                | _ => PriceChangeCaught
                end
            | Some other =>
                if Json.truthy (Some other) then PriceChangeCaught else noData
            end
      end
  end.

(** The tool's answer and the requests it made. *)
Definition getPriceChange (http : Http) (symbol : string) (period : Period)
  : PriceChangeResult * list Request :=
  let upperSymbol := Js.toUpperCase symbol in
  let request := mkRequest (rangeUrl upperSymbol period) [] in
  (priceChangeAnswer upperSymbol period (http request), [request]).

(** Sample reply of the chart endpoint: closes and a market price. *)
Definition sampleChart (closes : list Json.value) (price : Js.number)
  : Json.value :=
  Json.Object
    [("chart",
      Json.Object
        [("result",
          Json.Array
            [Json.Object
               [("meta", Json.Object [("regularMarketPrice", Json.Number price)]);
                ("indicators",
                 Json.Object
                   [("quote",
                     Json.Array
                       [Json.Object [("close", Json.Array closes)]])])]])])].

Definition answering (data : Json.value) : Http :=
  fun _ => Resolved (mkResponse true 200 (Parsed data)).


(** * Properties *)

Create HintDb alerts.
#[local] Hint Constructors fades Forall : alerts.

Section CheckBranches.

Variables (feed : Feed) (alertId : string) (ag : Agent).

Lemma check_outcome :
  CheckOutcome feed alertId ag (checkPriceAlerts feed alertId ag).
Proof.
  unfold checkPriceAlerts.
  destruct (find (hasId alertId) (alerts_of (state ag))) as [alert|] eqn:Hfind.
  2: { apply co_stale. now left. }
  destruct (active alert) eqn:Hact; cbn [negb].
  2: { apply co_stale. right. now exists alert. }
  destruct (feed (chartUrl (symbol alert))) as [|v] eqn:Hfeed.
  { apply co_no_price; auto. }
  destruct (Js.falsy v) eqn:Hfalsy.
  { apply co_no_price; auto. right. now exists v. }
  destruct v as [price|]; [|discriminate].
  cbn [Js.falsy] in Hfalsy.
  destruct (triggered alert price) eqn:Htrig.
  - now apply (co_triggered feed alertId ag alert price).
  - now apply (co_rescheduled feed alertId ag alert price).
Qed.

Lemma check_stale :
  (find (hasId alertId) (alerts_of (state ag)) = None
   \/ exists alert, find (hasId alertId) (alerts_of (state ag)) = Some alert
                    /\ active alert = false) ->
  checkPriceAlerts feed alertId ag = ag.
Proof.
  unfold checkPriceAlerts.
  intros [-> | (alert & -> & ->)]; reflexivity.
Qed.

Lemma check_no_price alert :
  find (hasId alertId) (alerts_of (state ag)) = Some alert ->
  active alert = true ->
  (feed (chartUrl (symbol alert)) = FeedThrows
   \/ exists v, feed (chartUrl (symbol alert)) = FeedData v
                /\ Js.falsy v = true) ->
  checkPriceAlerts feed alertId ag = fetch (chartUrl (symbol alert)) ag.
Proof.
  unfold checkPriceAlerts.
  intros -> -> [-> | (v & -> & ->)]; reflexivity.
Qed.

Lemma check_priced alert price :
  find (hasId alertId) (alerts_of (state ag)) = Some alert ->
  active alert = true ->
  feed (chartUrl (symbol alert)) = FeedData (Some price) ->
  Js.falsyNumber price = false ->
  checkPriceAlerts feed alertId ag =
    if triggered alert price then notified alertId alert price ag
    else rescheduled alertId alert ag.
Proof.
  unfold checkPriceAlerts.
  intros -> -> -> Hnum. cbn [negb Js.falsy]. rewrite Hnum.
  destruct (triggered alert price); reflexivity.
Qed.

End CheckBranches.

(** ** Facts on [find], [filter] and [map] over the collection *)

Lemma find_hasId_none alertId l :
  find (hasId alertId) l = None <-> ~ In alertId (map id l).
Proof.
  induction l as [|a l IH]; cbn [find map In].
  - tauto.
  - unfold hasId at 1. destruct (String.eqb (id a) alertId) eqn:E.
    + apply String.eqb_eq in E. split; [discriminate | tauto].
    + apply String.eqb_neq in E. rewrite IH. tauto.
Qed.

Lemma markIfId_id alertId a : id (markIfId alertId a) = id a.
Proof. unfold markIfId. now destruct (hasId alertId a). Qed.

Lemma markIfId_hit alertId a :
  id a = alertId -> markIfId alertId a = deactivate a.
Proof. intros <-. unfold markIfId, hasId. now rewrite String.eqb_refl. Qed.

Lemma markIfId_active alertId a :
  active (markIfId alertId a) = true -> markIfId alertId a = a /\ id a <> alertId.
Proof.
  unfold markIfId, hasId. destruct (String.eqb (id a) alertId) eqn:E.
  - discriminate.
  - apply String.eqb_neq in E. auto.
Qed.

Lemma find_map_markIfId alertId l alert :
  find (hasId alertId) l = Some alert ->
  find (hasId alertId) (map (markIfId alertId) l) = Some (deactivate alert).
Proof.
  induction l as [|a l IH]; cbn [find map]; [discriminate|].
  unfold hasId at 1 3. rewrite markIfId_id.
  destruct (String.eqb (id a) alertId) eqn:E.
  - intros [= ->]. unfold markIfId, hasId. now rewrite E.
  - exact IH.
Qed.

Lemma filter_all_kept {A} (f : A -> bool) (l : list A) :
  length l = length (filter f l) -> filter f l = l.
Proof.
  induction l as [|a l IH]; cbn [filter length]; [reflexivity|].
  destruct (f a); cbn [length]; intros H.
  - f_equal. apply IH. lia.
  - pose proof (filter_length_le f l). lia.
Qed.

Lemma deleteAlert_alerts alertId ag :
  alerts_of (state (snd (deleteAlert alertId ag))) =
  filter (fun a => negb (hasId alertId a)) (alerts_of (state ag)).
Proof.
  unfold deleteAlert.
  destruct (Nat.eqb_spec (length (alerts_of (state ag)))
              (length (filter (fun a => negb (hasId alertId a))
                         (alerts_of (state ag))))) as [E|E]; cbn [snd].
  - symmetry. now apply filter_all_kept.
  - reflexivity.
Qed.

Lemma deleteAlert_frame alertId ag :
  messages (snd (deleteAlert alertId ag)) = messages ag
  /\ schedules (snd (deleteAlert alertId ag)) = schedules ag
  /\ fetched (snd (deleteAlert alertId ag)) = fetched ag.
Proof.
  unfold deleteAlert.
  destruct (length (alerts_of (state ag)) =?
            length (filter (fun a => negb (hasId alertId a))
                      (alerts_of (state ag))))%nat; cbn; auto.
Qed.

Lemma find_hasId_filtered alertId l :
  find (hasId alertId) (filter (fun a => negb (hasId alertId a)) l) = None.
Proof.
  induction l as [|a l IH]; cbn [filter find]; [reflexivity|].
  destruct (hasId alertId a) eqn:E; cbn [negb find]; [assumption|].
  now rewrite E.
Qed.

(** ** The trigger rule *)

(** C2: the check computes [triggered] as (condition is above and
    price >= target) or (condition is below and price <= target), and for
    a price it has read and accepted it ends by that value: notification
    when it holds, a new wake-up when not.  Both comparisons are inclusive:
    above 100 fires at exactly 100 and not at 99.99, below 50 fires at
    exactly 50 and not at 50.01. *)
Theorem trigger_rule_inclusive :
  (forall alert price,
      triggered alert price =
        (Condition_eqb (condition alert) above
         && Js.ge price (targetPrice alert))
        || (Condition_eqb (condition alert) below
            && Js.le price (targetPrice alert)))
  /\ (forall feed alertId ag alert price,
        find (hasId alertId) (alerts_of (state ag)) = Some alert ->
        active alert = true ->
        feed (chartUrl (symbol alert)) = FeedData (Some price) ->
        Js.falsyNumber price = false ->
        checkPriceAlerts feed alertId ag =
          if (Condition_eqb (condition alert) above
              && Js.ge price (targetPrice alert))
             || (Condition_eqb (condition alert) below
                 && Js.le price (targetPrice alert))
          then notified alertId alert price ag
          else rescheduled alertId alert ag)
  /\ triggered (sampleAlert above 100) 100 = true
  /\ triggered (sampleAlert above 100) 99.99 = false
  /\ triggered (sampleAlert below 50) 50 = true
  /\ triggered (sampleAlert below 50) 50.01 = false
  /\ checkPriceAlerts (quote 100) sampleId (holding (sampleAlert above 100))
     = notified sampleId (sampleAlert above 100) 100
         (holding (sampleAlert above 100))
  /\ checkPriceAlerts (quote 99.99) sampleId (holding (sampleAlert above 100))
     = rescheduled sampleId (sampleAlert above 100)
         (holding (sampleAlert above 100))
  /\ checkPriceAlerts (quote 50) sampleId (holding (sampleAlert below 50))
     = notified sampleId (sampleAlert below 50) 50
         (holding (sampleAlert below 50))
  /\ checkPriceAlerts (quote 50.01) sampleId (holding (sampleAlert below 50))
     = rescheduled sampleId (sampleAlert below 50)
         (holding (sampleAlert below 50)).
Proof.
  assert (Hrule : forall alert price,
             triggered alert price =
               (Condition_eqb (condition alert) above
                && Js.ge price (targetPrice alert))
               || (Condition_eqb (condition alert) below
                   && Js.le price (targetPrice alert))).
  { intros alert price. unfold triggered.
    destruct (condition alert); cbn [Condition_eqb andb orb].
    - now rewrite orb_false_r.
    - reflexivity. }
  split; [exact Hrule|]. split.
  { intros feed alertId ag alert price Hfind Hact Hfeed Hnum.
    rewrite <- Hrule. now apply check_priced. }
  repeat split; vm_compute; reflexivity.
Qed.

Lemma trigger_rule_inclusive_witness :
  let alert := sampleAlert above 100 in
  checkPriceAlerts (quote 100) sampleId (holding alert)
  = notified sampleId alert 100 (holding alert).
Proof.
  cbv zeta.
  rewrite (proj1 (proj2 trigger_rule_inclusive) (quote 100) sampleId
             (holding (sampleAlert above 100)) (sampleAlert above 100)
             100%float);
    reflexivity.
Defined.

(** ** Stale wake-ups *)

(** C4: a wake-up whose alert id is absent from the collection, or whose
    alert is inactive, changes nothing: no notification, no state change,
    no new wake-up (and no feed request).  In particular a wake-up that
    fires after its alert was deleted neither notifies nor reschedules. *)
Theorem stale_wakeup_is_noop feed alertId ag :
  ((~ In alertId (map id (alerts_of (state ag)))
    \/ exists alert,
         find (hasId alertId) (alerts_of (state ag)) = Some alert
         /\ active alert = false) ->
   checkPriceAlerts feed alertId ag = ag)
  /\ (checkPriceAlerts feed alertId (snd (deleteAlert alertId ag))
      = snd (deleteAlert alertId ag))
  /\ (forall s, payload s = alertId ->
        let fired := onWakeup feed s (snd (deleteAlert alertId ag)) in
        messages fired = messages ag
        /\ schedules fired = removeFirst s (schedules ag)
        /\ state fired = state (snd (deleteAlert alertId ag))).
Proof.
  split; [|split].
  - intros [Habs | Hoff]; apply check_stale.
    + left. now apply find_hasId_none.
    + now right.
  - apply check_stale. left.
    rewrite deleteAlert_alerts. apply find_hasId_filtered.
  - intros s <-. cbv zeta. unfold onWakeup.
    destruct (deleteAlert_frame (payload s) ag) as (Hm & Hs & Hf).
    rewrite check_stale.
    + cbn [messages schedules state]. rewrite Hs. auto.
    + left. cbn [state]. rewrite deleteAlert_alerts.
      apply find_hasId_filtered.
Qed.

Lemma stale_wakeup_is_noop_witness :
  let ag := run [Wakeup (quote 100) sampleId] (holding (sampleAlert above 100)) in
  (exists alert,
      find (hasId sampleId) (alerts_of (state ag)) = Some alert
      /\ active alert = false)
  /\ checkPriceAlerts (quote 200) sampleId ag = ag.
Proof.
  cbv zeta.
  assert (H : exists alert,
             find (hasId sampleId)
               (alerts_of (state (run [Wakeup (quote 100) sampleId]
                                    (holding (sampleAlert above 100)))))
             = Some alert /\ active alert = false).
  { eexists. split; vm_compute; reflexivity. }
  split; [exact H|].
  apply (proj1 (stale_wakeup_is_noop (quote 200) sampleId _)).
  right. exact H.
Defined.

(** ** Checks that obtain no price *)

(** C5: when the feed request or the JSON parse throws, or no price can be
    read from the reply, the check of an active alert ends after that single
    request: nothing is rescheduled, nothing is notified, the collection is
    untouched and the alert stays in it, still active. *)
Theorem feed_failure_leaves_dormant feed alertId ag alert :
  find (hasId alertId) (alerts_of (state ag)) = Some alert ->
  active alert = true ->
  (feed (chartUrl (symbol alert)) = FeedThrows
   \/ feed (chartUrl (symbol alert)) = FeedData None) ->
  let ag' := checkPriceAlerts feed alertId ag in
  state ag' = state ag
  /\ messages ag' = messages ag
  /\ schedules ag' = schedules ag
  /\ fetched ag' = (fetched ag ++ [chartUrl (symbol alert)])%list
  /\ (exists a, find (hasId alertId) (alerts_of (state ag')) = Some a
                /\ active a = true).
Proof.
  intros Hfind Hact Hfeed. cbv zeta.
  rewrite (check_no_price feed alertId ag alert Hfind Hact).
  - cbn. repeat split. now exists alert.
  - destruct Hfeed as [H|H]; [now left|]. right. now exists None.
Qed.

Lemma feed_failure_leaves_dormant_witness :
  let ag := holding (sampleAlert above 100) in
  state (checkPriceAlerts feedDown sampleId ag) = state ag
  /\ schedules (checkPriceAlerts feedDown sampleId ag) = schedules ag.
Proof.
  cbv zeta.
  destruct (feed_failure_leaves_dormant feedDown sampleId
              (holding (sampleAlert above 100)) (sampleAlert above 100))
    as (Hst & _ & Hsch & _).
  - reflexivity.
  - reflexivity.
  - left. reflexivity.
  - split; assumption.
Defined.

(** C10: a reply whose price is 0, -0, NaN or missing is handled exactly as
    a failed request: the check returns before the trigger rule is
    evaluated, with no notification, no state change and no new wake-up,
    even where the rule would hold (below 50 at price 0). *)
Theorem falsy_price_is_feed_failure feed alertId ag alert v :
  find (hasId alertId) (alerts_of (state ag)) = Some alert ->
  active alert = true ->
  feed (chartUrl (symbol alert)) = FeedData v ->
  Js.falsy v = true ->
  let ag' := checkPriceAlerts feed alertId ag in
  ag' = checkPriceAlerts feedDown alertId ag
  /\ state ag' = state ag
  /\ messages ag' = messages ag
  /\ schedules ag' = schedules ag
  /\ Js.falsy (Some 0%float) = true
  /\ Js.falsy (Some (-0)%float) = true
  /\ Js.falsy (Some nan) = true
  /\ Js.falsy None = true
  /\ triggered (sampleAlert below 50) 0 = true.
Proof.
  intros Hfind Hact Hfeed Hfalsy. cbv zeta.
  rewrite (check_no_price feed alertId ag alert Hfind Hact).
  - rewrite (check_no_price feedDown alertId ag alert Hfind Hact).
    + cbn [fetch state messages schedules]. repeat split.
    + now left.
  - right. now exists v.
Qed.

Lemma falsy_price_is_feed_failure_witness :
  let ag := holding (sampleAlert below 50) in
  triggered (sampleAlert below 50) 0 = true
  /\ state (checkPriceAlerts (quote 0) sampleId ag) = state ag
  /\ messages (checkPriceAlerts (quote 0) sampleId ag) = []
  /\ schedules (checkPriceAlerts (quote 0) sampleId ag) = schedules ag.
Proof.
  cbv zeta.
  destruct (falsy_price_is_feed_failure (quote 0) sampleId
              (holding (sampleAlert below 50)) (sampleAlert below 50)
              (Some 0%float))
    as (_ & Hst & Hm & Hsch & _ & _ & _ & _ & Htrig).
  - reflexivity.
  - reflexivity.
  - reflexivity.
  - reflexivity.
  - repeat split; assumption.
Defined.

(** ** Triggering checks *)

(** C3, as the code has it: for an active alert whose check reads a
    triggering price that is a price for the check (not 0, not NaN), every
    alert with that id is switched off in the collection and the others are
    untouched, exactly one message is appended to the transcript, naming
    symbol, condition, target and observed price, and no wake-up is
    requested. *)
Theorem triggered_check_notifies_once feed alertId ag alert price :
  find (hasId alertId) (alerts_of (state ag)) = Some alert ->
  active alert = true ->
  feed (chartUrl (symbol alert)) = FeedData (Some price) ->
  Js.falsyNumber price = false ->
  triggered alert price = true ->
  let ag' := checkPriceAlerts feed alertId ag in
  let note := alertText alert price in
  alerts_of (state ag') = map (markIfId alertId) (alerts_of (state ag))
  /\ find (hasId alertId) (alerts_of (state ag')) = Some (deactivate alert)
  /\ (forall a, In a (alerts_of (state ag')) -> id a = alertId ->
                active a = false)
  /\ (forall a, In a (alerts_of (state ag)) -> id a <> alertId ->
                In a (alerts_of (state ag')))
  /\ messages ag' = (messages ag ++ [mkMessage assistant note])%list
  /\ (In (Js.Lit (symbol alert)) note
      /\ In (Js.Lit (Condition_text (condition alert))) note
      /\ In (Js.Num (targetPrice alert)) note
      /\ In (Js.Fixed price 2) note)
  /\ schedules ag' = schedules ag.
Proof.
  intros Hfind Hact Hfeed Hnum Htrig. cbv zeta.
  rewrite (check_priced feed alertId ag alert price Hfind Hact Hfeed Hnum).
  rewrite Htrig. cbn [notified state alerts_of alerts messages schedules].
  split; [reflexivity|]. split; [now apply find_map_markIfId|].
  split; [|split; [|split; [reflexivity|split; [|reflexivity]]]].
  - intros a Hin Hid. apply in_map_iff in Hin.
    destruct Hin as (a0 & <- & _). rewrite markIfId_id in Hid.
    now rewrite (markIfId_hit alertId a0 Hid).
  - intros a Hin Hid. apply in_map_iff. exists a. split; [|assumption].
    unfold markIfId, hasId. apply String.eqb_neq in Hid. now rewrite Hid.
  - unfold alertText. cbn [In]. repeat split; tauto.
Qed.

Lemma triggered_check_notifies_once_witness :
  let ag := holding (sampleAlert above 10) in
  alerts_of (state (checkPriceAlerts (quote 11) sampleId ag))
    = [deactivate (sampleAlert above 10)]
  /\ length (messages (checkPriceAlerts (quote 11) sampleId ag)) = 1%nat
  /\ schedules (checkPriceAlerts (quote 11) sampleId ag) = schedules ag.
Proof.
  cbv zeta.
  destruct (triggered_check_notifies_once (quote 11) sampleId
              (holding (sampleAlert above 10)) (sampleAlert above 10)
              11%float)
    as (Hal & _ & _ & _ & Hm & _ & Hsch); try reflexivity.
  rewrite Hal, Hm, Hsch. repeat split.
Defined.

(** C3 as stated fails at price 0: for an active "below 50" alert the feed
    reports 0, which satisfies the trigger rule, yet the check leaves the
    alert active and delivers nothing. *)
Lemma zero_price_trigger_is_dropped :
  let alert := sampleAlert below 50 in
  let ag' := checkPriceAlerts (quote 0) sampleId (holding alert) in
  find (hasId sampleId) (alerts_of (state (holding alert))) = Some alert
  /\ active alert = true
  /\ triggered alert 0 = true
  /\ alerts_of (state ag') = [alert]
  /\ messages ag' = [].
Proof. cbv zeta. repeat split; vm_compute; reflexivity. Qed.

(** ** Wake-ups requested by a check *)

Lemma check_requests feed alertId ag :
  let ag' := checkPriceAlerts feed alertId ag in
  schedules ag' = schedules ag
  \/ (schedules ag' =
        (schedules ag ++ [mkSchedule checkInterval "checkPriceAlerts" alertId])%list
      /\ state ag' = state ag
      /\ messages ag' = messages ag
      /\ exists alert,
           find (hasId alertId) (alerts_of (state ag')) = Some alert
           /\ active alert = true).
Proof.
  cbv zeta. destruct (check_outcome feed alertId ag); cbn; auto.
  right. repeat split. now exists alert.
Qed.

Lemma Schedule_eqb_eq s1 s2 : Schedule_eqb s1 s2 = true -> s1 = s2.
Proof.
  unfold Schedule_eqb. destruct s1, s2; cbn.
  intros H. apply andb_true_iff in H. destruct H as [H Hp].
  apply andb_true_iff in H. destruct H as [Hw Hc].
  apply Z.eqb_eq in Hw. apply String.eqb_eq in Hc. apply String.eqb_eq in Hp.
  now subst.
Qed.

Lemma Schedule_eqb_refl s : Schedule_eqb s s = true.
Proof.
  unfold Schedule_eqb. now rewrite Z.eqb_refl, !String.eqb_refl.
Qed.

Lemma removeFirst_count (f : Schedule -> bool) s l :
  In s l ->
  length (filter f l) =
  (length (filter f (removeFirst s l)) + (if f s then 1 else 0))%nat.
Proof.
  induction l as [|x l IH]; cbn [In removeFirst filter]; [tauto|].
  intros Hin. destruct (Schedule_eqb s x) eqn:E.
  - apply Schedule_eqb_eq in E. subst x.
    destruct (f s); cbn [length]; lia.
  - destruct Hin as [->|Hin]; [now rewrite Schedule_eqb_refl in E|].
    specialize (IH Hin). cbn [filter].
    destruct (f x); cbn [length]; lia.
Qed.

Lemma wakes_unique x y s : wakes x s = true -> wakes y s = true -> x = y.
Proof.
  unfold wakes. rewrite !andb_true_iff, !String.eqb_eq.
  intros [_ <-] [_ <-]. reflexivity.
Qed.

(** C6: a check ends in one of two ways, never both: it requests exactly
    one wake-up, for the same alert id, [checkInterval] = 300 seconds out,
    the alert still active and nothing else changed; or it requests none.
    The wake-up is requested exactly in the not-triggered branch (alert
    found active, price read and accepted, rule false).
    Hence, when the timer delivers a pending wake-up of an alert and at most
    one wake-up per alert was in flight, at most one per alert is in flight
    after the check. *)
Theorem check_requests_at_most_one_wakeup feed alertId ag :
  (exists requested,
      schedules (checkPriceAlerts feed alertId ag)
        = (schedules ag ++ requested)%list
      /\ (requested = []
          \/ (requested = [mkSchedule 300 "checkPriceAlerts" alertId]
              /\ state (checkPriceAlerts feed alertId ag) = state ag
              /\ messages (checkPriceAlerts feed alertId ag) = messages ag
              /\ exists alert,
                   find (hasId alertId)
                     (alerts_of (state (checkPriceAlerts feed alertId ag)))
                     = Some alert
                   /\ active alert = true))
      /\ forall other,
           schedules (checkPriceAlerts feed alertId ag)
             = (schedules ag ++ other)%list -> other = requested)
  /\ (schedules (checkPriceAlerts feed alertId ag) <> schedules ag
      <-> exists alert price,
            find (hasId alertId) (alerts_of (state ag)) = Some alert
            /\ active alert = true
            /\ feed (chartUrl (symbol alert)) = FeedData (Some price)
            /\ Js.falsyNumber price = false
            /\ triggered alert price = false)
  /\ (forall s,
        In s (schedules ag) ->
        wakes alertId s = true ->
        (forall x, inFlight x ag <= 1) ->
        forall x, inFlight x (onWakeup feed s ag) <= 1).
Proof.
  split; [|split].
  - destruct (check_requests feed alertId ag) as [H | (H & Hst & Hm & Hal)].
    + exists []. rewrite H, app_nil_r. split; [reflexivity|].
      split; [now left|]. intros other Ho.
      rewrite <- (app_nil_r (schedules ag)) in Ho at 1.
      apply app_inv_head in Ho. now symmetry.
    + exists [mkSchedule 300 "checkPriceAlerts" alertId].
      split; [exact H|]. split; [right; auto|].
      intros other Ho. rewrite H in Ho. apply app_inv_head in Ho.
      now symmetry.
  - split.
    + intros Hdiff.
      destruct (check_outcome feed alertId ag) as [| | |alert price];
        try (exfalso; apply Hdiff; reflexivity).
      now exists alert, price.
    + intros (alert & price & Hfind & Hact & Hfeed & Hnum & Htrig).
      rewrite (check_priced feed alertId ag alert price Hfind Hact Hfeed Hnum).
      rewrite Htrig. cbn [rescheduled schedules]. intros Heq.
      apply (f_equal (@length Schedule)) in Heq.
      rewrite length_app in Heq. cbn [length] in Heq. lia.
  - intros s Hin Hw Hinv x. unfold onWakeup.
    assert (Hp : payload s = alertId).
    { unfold wakes in Hw. apply andb_true_iff in Hw.
      now apply String.eqb_eq. }
    rewrite Hp.
    set (ag0 := mkAgent (state ag) (messages ag)
                  (removeFirst s (schedules ag)) (fetched ag)).
    pose proof (removeFirst_count (wakes x) s (schedules ag) Hin) as Hcount.
    specialize (Hinv x). unfold inFlight in *.
    destruct (check_requests feed alertId ag0) as [H | (H & _)];
      cbv zeta in H; rewrite H; cbn [schedules ag0].
    + lia.
    + rewrite filter_app, length_app. cbn [filter].
      destruct (wakes x (mkSchedule checkInterval "checkPriceAlerts" alertId))
        eqn:Hx; cbn [length]; [|lia].
      assert (x = alertId) by (eapply wakes_unique; [exact Hx|]; unfold wakes;
        cbn; now rewrite String.eqb_refl).
      subst x. rewrite Hw in Hcount. lia.
Qed.

Lemma check_requests_at_most_one_wakeup_witness :
  let ag := holding (sampleAlert above 10) in
  let s := mkSchedule 300 "checkPriceAlerts" sampleId in
  inFlight sampleId ag = 1%nat
  /\ inFlight sampleId (onWakeup (quote 8) s ag) <= 1.
Proof.
  cbv zeta. split; [reflexivity|].
  apply (proj2 (proj2 (check_requests_at_most_one_wakeup (quote 8) sampleId
                         (holding (sampleAlert above 10))))
           (mkSchedule 300 "checkPriceAlerts" sampleId)).
  - left. reflexivity.
  - reflexivity.
  - intros x. unfold inFlight, holding, sampleAlert. cbn [schedules filter id].
    destruct (wakes x _); cbn [length]; lia.
Defined.

(** ** Listing *)

Lemma listAlerts_listed ag :
  listed (fst (listAlerts ag)) =
  map viewOf (filter (fun a => active a) (alerts_of (state ag))).
Proof.
  unfold listAlerts.
  destruct (filter (fun a => active a) (alerts_of (state ag))); reflexivity.
Qed.

Lemma setPriceAlert_alerts clk sym target cond ag :
  alerts_of (state (snd (setPriceAlert clk sym target cond ag))) =
  (alerts_of (state ag)
     ++ [mkAlert (newAlertId (now clk)) (Js.toUpperCase sym) target cond
           (isoString clk) true])%list.
Proof. reflexivity. Qed.

(** C9: [listAlerts] shows exactly the active alerts, in the order of the
    collection (a new alert is appended, so in insertion order), each with
    its id, symbol, condition, targetPrice and createdAt, and leaves the
    agent as it was.  With no active alert the tool answers with the
    sentence [noAlertsText], which shows none. *)
Theorem listAlerts_shows_active_in_order ag :
  let shown := filter (fun a => active a) (alerts_of (state ag)) in
  listed (fst (listAlerts ag)) = map viewOf shown
  /\ fst (listAlerts ag) =
       match shown with
       | [] => NoAlerts noAlertsText
       | _ :: _ => Listing (length shown) (map viewOf shown)
       end
  /\ snd (listAlerts ag) = ag
  /\ (forall a, viewOf a =
        mkView (id a) (symbol a) (condition a) (targetPrice a) (createdAt a))
  /\ (forall clk sym target cond,
        listed (fst (listAlerts (snd (setPriceAlert clk sym target cond ag))))
        = (listed (fst (listAlerts ag))
             ++ [mkView (newAlertId (now clk)) (Js.toUpperCase sym) cond target
                   (isoString clk)])%list).
Proof.
  cbv zeta. split; [apply listAlerts_listed|].
  split; [|split; [|split; [reflexivity|]]].
  - unfold listAlerts.
    destruct (filter (fun a => active a) (alerts_of (state ag))); reflexivity.
  - unfold listAlerts.
    destruct (length (filter (fun a => active a) (alerts_of (state ag))) =? 0)%nat;
      reflexivity.
  - intros clk sym target cond.
    rewrite !listAlerts_listed, setPriceAlert_alerts, filter_app, map_app.
    reflexivity.
Qed.

(** ** Deleting *)

Lemma hasId_count_zero alertId l :
  ~ In alertId (map id l) -> filter (hasId alertId) l = [].
Proof.
  induction l as [|a l IH]; cbn [map In filter]; [reflexivity|].
  intros H. unfold hasId at 1. destruct (String.eqb_spec (id a) alertId) as [E|E].
  - tauto.
  - apply IH. tauto.
Qed.

Lemma hasId_count_pos alertId l :
  In alertId (map id l) -> 0 < length (filter (hasId alertId) l).
Proof.
  induction l as [|a l IH]; cbn [map In filter]; [tauto|].
  unfold hasId at 1. destruct (String.eqb_spec (id a) alertId) as [E|E].
  - cbn [length]. lia.
  - intros [H|H]; [contradiction|]. now apply IH.
Qed.

Lemma hasId_count_unique alertId l :
  NoDup (map id l) -> length (filter (hasId alertId) l) <= 1.
Proof.
  induction l as [|a l IH]; cbn [map filter]; [cbn; lia|].
  intros H. inversion H as [|x xs Hnotin Hnodup]; subst.
  unfold hasId at 1. destruct (String.eqb_spec (id a) alertId) as [E|E].
  - subst alertId. rewrite (hasId_count_zero _ _ Hnotin). cbn. lia.
  - now apply IH.
Qed.

Lemma hasId_split alertId l :
  (length (filter (fun a => negb (hasId alertId a)) l)
   + length (filter (hasId alertId) l))%nat = length l.
Proof. rewrite Nat.add_comm. apply filter_length. Qed.

Lemma texts_differ alertId : deletedText alertId <> notFoundText alertId.
Proof. unfold deletedText, notFoundText. cbn. discriminate. Qed.

(** C8, as the code has it: [deleteAlert] removes every alert carrying the
    id and keeps the others unchanged and in order, so the collection
    shrinks by the number of alerts with that id, which is exactly one when
    the ids of the collection are distinct; it then reports the deletion.
    When the id is absent it reports "not found" as an ordinary answer and
    leaves the agent unchanged.  A second delete of the same id therefore
    reports "not found". *)
Theorem deleteAlert_removes_by_id alertId ag :
  let before := alerts_of (state ag) in
  let after := alerts_of (state (snd (deleteAlert alertId ag))) in
  after = filter (fun a => negb (hasId alertId a)) before
  /\ (length after + length (filter (hasId alertId) before))%nat
     = length before
  /\ messages (snd (deleteAlert alertId ag)) = messages ag
  /\ schedules (snd (deleteAlert alertId ag)) = schedules ag
  /\ (In alertId (map id before) ->
      fst (deleteAlert alertId ag) = deletedText alertId
      /\ length after < length before
      /\ (NoDup (map id before) -> S (length after) = length before))
  /\ (~ In alertId (map id before) ->
      deleteAlert alertId ag = (notFoundText alertId, ag))
  /\ deleteAlert alertId (snd (deleteAlert alertId ag))
     = (notFoundText alertId, snd (deleteAlert alertId ag))
  /\ deletedText alertId <> notFoundText alertId.
Proof.
  cbv zeta.
  pose proof (deleteAlert_alerts alertId ag) as Hafter.
  pose proof (hasId_split alertId (alerts_of (state ag))) as Hsplit.
  destruct (deleteAlert_frame alertId ag) as (Hm & Hs & _).
  assert (Hnf : forall any, ~ In alertId (map id (alerts_of (state any))) ->
                deleteAlert alertId any = (notFoundText alertId, any)).
  { intros any Habs. unfold deleteAlert.
    pose proof (hasId_split alertId (alerts_of (state any))) as Hsp.
    rewrite (hasId_count_zero _ _ Habs) in Hsp. cbn [length] in Hsp.
    replace (length (alerts_of (state any)) =?
             length (filter (fun a => negb (hasId alertId a))
                       (alerts_of (state any))))%nat with true;
      [reflexivity|].
    symmetry. apply Nat.eqb_eq. lia. }
  split; [exact Hafter|]. rewrite Hafter.
  split; [exact Hsplit|]. split; [exact Hm|]. split; [exact Hs|].
  split; [|split; [exact (Hnf ag)|split; [|apply texts_differ]]].
  - intros Hin. apply hasId_count_pos in Hin.
    split; [|split; [lia|]].
    + unfold deleteAlert.
      destruct (Nat.eqb_spec (length (alerts_of (state ag)))
                  (length (filter (fun a => negb (hasId alertId a))
                             (alerts_of (state ag))))) as [E|E];
        [lia|reflexivity].
    + intros Hnd. pose proof (hasId_count_unique alertId _ Hnd). lia.
  - apply Hnf. rewrite Hafter. apply find_hasId_none, find_hasId_filtered.
Qed.

Lemma deleteAlert_removes_by_id_witness :
  let ag := holding (sampleAlert above 10) in
  fst (deleteAlert sampleId ag) = deletedText sampleId
  /\ S (length (alerts_of (state (snd (deleteAlert sampleId ag)))))
     = length (alerts_of (state ag))
  /\ fst (deleteAlert sampleId (snd (deleteAlert sampleId ag)))
     = notFoundText sampleId.
Proof.
  cbv zeta.
  destruct (deleteAlert_removes_by_id sampleId (holding (sampleAlert above 10)))
    as (_ & _ & _ & _ & Hin & _ & Hagain & _).
  destruct Hin as (Htext & _ & Hone).
  - left. reflexivity.
  - split; [exact Htext|]. split.
    + apply Hone. cbn. constructor; [intros []|constructor].
    + now rewrite Hagain.
Defined.

(** C8 as stated fails once two alerts share an id, which two creates in
    the same millisecond produce: the delete then removes both and the
    collection shrinks by two. *)
Lemma delete_removes_both_twins :
  let ag := run [CreateAlert sampleClock "aapl" 100 above;
                 CreateAlert sampleClock "tsla" 50 below] initialAgent in
  map id (alerts_of (state ag)) = [sampleId; sampleId]
  /\ fst (deleteAlert sampleId ag) = deletedText sampleId
  /\ length (alerts_of (state ag)) = 2%nat
  /\ length (alerts_of (state (snd (deleteAlert sampleId ag)))) = 0%nat.
Proof. cbv zeta. repeat split; vm_compute; reflexivity. Qed.

(** ** Creating *)

Lemma integerToString_inj z1 z2 :
  Js.integerToString z1 = Js.integerToString z2 -> z1 = z2.
Proof.
  unfold Js.integerToString. intros H.
  apply DecimalZ.to_int_inj.
  apply (f_equal NilEmpty.int_of_string) in H.
  rewrite !NilEmpty.isi in H. now injection H.
Qed.

Lemma newAlertId_inj z1 z2 : newAlertId z1 = newAlertId z2 <-> z1 = z2.
Proof.
  split; [|now intros ->].
  unfold newAlertId. cbn [append]. intros H.
  injection H as H. now apply integerToString_inj.
Qed.

Lemma check_alerts feed alertId ag :
  alerts_of (state (checkPriceAlerts feed alertId ag)) = alerts_of (state ag)
  \/ alerts_of (state (checkPriceAlerts feed alertId ag))
     = map (markIfId alertId) (alerts_of (state ag)).
Proof. destruct (check_outcome feed alertId ag); cbn; auto. Qed.

Lemma map_id_marked alertId l : map id (map (markIfId alertId) l) = map id l.
Proof.
  rewrite map_map. apply map_ext. intros a. apply markIfId_id.
Qed.

Lemma listAlerts_agent ag : snd (listAlerts ag) = ag.
Proof.
  unfold listAlerts.
  now destruct (length (filter (fun a => active a) (alerts_of (state ag))) =? 0)%nat.
Qed.

Lemma createClocks_cons op ops :
  createClocks (op :: ops) = (createClocks [op] ++ createClocks ops)%list.
Proof. destruct op; reflexivity. Qed.

Lemma step_idsFrom cs ag op :
  idsFrom cs ag -> idsFrom (cs ++ createClocks [op]) (step ag op).
Proof.
  unfold idsFrom. intros Hinv a. rewrite map_app, in_app_iff.
  destruct op as [clk sym target cond| |i|feed i]; cbn [step createClocks].
  - rewrite setPriceAlert_alerts, in_app_iff. cbn [In map].
    intros [Hin | [<- | []]]; [left; auto | right; left; reflexivity].
  - rewrite listAlerts_agent. auto.
  - rewrite deleteAlert_alerts, filter_In. intros [Hin _]. auto.
  - destruct (check_alerts feed i ag) as [-> | ->]; [auto|].
    rewrite in_map_iff. intros (a0 & <- & Hin). rewrite markIfId_id. auto.
Qed.

Lemma run_idsFrom ops : forall cs ag,
  idsFrom cs ag -> idsFrom (cs ++ createClocks ops) (run ops ag).
Proof.
  induction ops as [|op ops IH]; intros cs ag Hinv.
  - cbn. now rewrite app_nil_r.
  - rewrite createClocks_cons, app_assoc. cbn [run fold_left].
    apply IH. now apply step_idsFrom.
Qed.

Lemma initial_idsFrom : idsFrom [] initialAgent.
Proof. intros a []. Qed.

Lemma NoDup_ids_filter (f : PriceAlert -> bool) l :
  NoDup (map id l) -> NoDup (map id (filter f l)).
Proof.
  induction l as [|a l IH]; cbn [map filter]; [auto|].
  intros H. inversion H as [|x xs Hnotin Hnd]; subst.
  destruct (f a); cbn [map]; [|auto].
  constructor; [|auto]. intros Hin. apply Hnotin.
  apply in_map_iff in Hin. destruct Hin as (b & Hb & Hin).
  apply filter_In in Hin. apply in_map_iff. exists b. tauto.
Qed.

Lemma step_unique cs ag op :
  idsFrom cs ag ->
  NoDup (cs ++ createClocks [op]) ->
  NoDup (map id (alerts_of (state ag))) ->
  NoDup (map id (alerts_of (state (step ag op)))).
Proof.
  intros Hfrom Hclocks Hnd.
  destruct op as [clk sym target cond| |i|feed i]; cbn [step createClocks] in *.
  - rewrite setPriceAlert_alerts, map_app. cbn [map id].
    apply NoDup_app; [assumption|repeat constructor; intros []|].
    intros x Hx [<- | []]. apply in_map_iff in Hx.
    destruct Hx as (a & Ha & Hin). apply Hfrom in Hin. rewrite Ha in Hin.
    apply in_map_iff in Hin. destruct Hin as (z & Hz & Hin).
    apply newAlertId_inj in Hz. subst z.
    apply NoDup_remove_2 in Hclocks. apply Hclocks. now rewrite app_nil_r.
  - now rewrite listAlerts_agent.
  - rewrite deleteAlert_alerts. now apply NoDup_ids_filter.
  - destruct (check_alerts feed i ag) as [-> | ->]; [assumption|].
    now rewrite map_id_marked.
Qed.

Lemma run_unique ops : forall cs ag,
  idsFrom cs ag ->
  NoDup (cs ++ createClocks ops) ->
  NoDup (map id (alerts_of (state ag))) ->
  NoDup (map id (alerts_of (state (run ops ag)))).
Proof.
  induction ops as [|op ops IH]; intros cs ag Hfrom Hclocks Hnd.
  - exact Hnd.
  - rewrite createClocks_cons, app_assoc in Hclocks. cbn [run fold_left].
    apply (IH (cs ++ createClocks [op])%list).
    + now apply step_idsFrom.
    + exact Hclocks.
    + apply (step_unique cs); auto. now apply NoDup_app_remove_r in Hclocks.
Qed.

(** C1, as the code has it: a create appends an alert with [active = true]
    whose id is "alert-" followed by the millisecond clock reading, and
    returns that id.  The id differs from every id in the collection when no
    earlier create read the same clock value; two creates get distinct ids
    exactly when their clock readings differ, and the ids of a collection
    are pairwise distinct when the clock readings of its creates are. *)
Theorem setPriceAlert_id_fresh_for_new_clock history clk sym target cond :
  ~ In (now clk) (createClocks history) ->
  let ag := run history initialAgent in
  let r := setPriceAlert clk sym target cond ag in
  (exists newAlert,
      alerts_of (state (snd r)) = (alerts_of (state ag) ++ [newAlert])%list
      /\ active newAlert = true
      /\ id newAlert = alertId (fst r))
  /\ success (fst r) = true
  /\ alertId (fst r) = newAlertId (now clk)
  /\ ~ In (alertId (fst r)) (map id (alerts_of (state ag)))
  /\ (forall clk' sym' target' cond' ag',
        alertId (fst (setPriceAlert clk' sym' target' cond' ag'))
          = alertId (fst r) <-> now clk' = now clk)
  /\ (NoDup (createClocks history) ->
      NoDup (map id (alerts_of (state (snd r))))).
Proof.
  intros Hnew. cbv zeta.
  pose proof (run_idsFrom history [] initialAgent initial_idsFrom) as Hfrom.
  cbn [app] in Hfrom.
  split; [|split; [reflexivity|split; [reflexivity|split; [|split]]]].
  - eexists. split; [apply setPriceAlert_alerts|]. split; reflexivity.
  - cbn [setPriceAlert fst alertId id]. intros Hin.
    apply in_map_iff in Hin. destruct Hin as (a & Ha & Hin).
    apply Hfrom in Hin. rewrite Ha in Hin. apply in_map_iff in Hin.
    destruct Hin as (z & Hz & Hin). apply newAlertId_inj in Hz. now subst z.
  - intros clk' sym' target' cond' ag'. cbn [setPriceAlert fst alertId id].
    apply newAlertId_inj.
  - intros Hnd.
    change (snd (setPriceAlert clk sym target cond (run history initialAgent)))
      with (step (run history initialAgent) (CreateAlert clk sym target cond)).
    apply (step_unique (createClocks history)).
    + exact Hfrom.
    + cbn [createClocks]. apply NoDup_app; [assumption|repeat constructor; intros []|].
      intros z Hz [<- | []]. contradiction.
    + apply (run_unique history []); cbn [app]; auto using initial_idsFrom.
      constructor.
Qed.

Lemma setPriceAlert_id_fresh_for_new_clock_witness :
  let ag := run [CreateAlert sampleClock "aapl" 100 above] initialAgent in
  let r := setPriceAlert laterClock "tsla" 50 below ag in
  alertId (fst r) = "alert-1700000000001"
  /\ ~ In (alertId (fst r)) (map id (alerts_of (state ag)))
  /\ NoDup (map id (alerts_of (state (snd r)))).
Proof.
  cbv zeta.
  destruct (setPriceAlert_id_fresh_for_new_clock
              [CreateAlert sampleClock "aapl" 100 above]
              laterClock "tsla" 50 below)
    as (_ & _ & Hid & Hfresh & _ & Hnd).
  - cbn. intros [H | []]. discriminate H.
  - split; [exact Hid|]. split; [exact Hfresh|].
    apply Hnd. cbn. constructor; [intros []|constructor].
Defined.

(** C1 as stated fails for two creates within one millisecond: the second
    id equals the first, which is already in the collection. *)
Lemma same_millisecond_ids_collide :
  let first := setPriceAlert sampleClock "aapl" 100 above initialAgent in
  let second := setPriceAlert sampleClock "tsla" 50 below (snd first) in
  alertId (fst second) = alertId (fst first)
  /\ In (alertId (fst second)) (map id (alerts_of (state (snd first))))
  /\ map id (alerts_of (state (snd second))) = [sampleId; sampleId].
Proof.
  cbv zeta. split; [reflexivity|]. split; [left; reflexivity|].
  vm_compute. reflexivity.
Qed.

(** ** The [active] flag over time *)

Lemma fades_refl l : fades l l.
Proof. induction l; auto with alerts. Qed.

#[local] Hint Resolve fades_refl : alerts.

Lemma fades_filter (f : PriceAlert -> bool) l : fades l (filter f l).
Proof.
  induction l as [|a l IH]; cbn [filter]; [auto with alerts|].
  destruct (f a); auto with alerts.
Qed.

Lemma fades_marked alertId l : fades l (map (markIfId alertId) l).
Proof.
  induction l as [|a l IH]; cbn [map]; [auto with alerts|].
  unfold markIfId at 1. destruct (hasId alertId a); auto with alerts.
Qed.

Lemma deactivate_twice a : deactivate (deactivate a) = deactivate a.
Proof. reflexivity. Qed.

Lemma fades_trans l1 l2 :
  fades l1 l2 -> forall l3, fades l2 l3 -> fades l1 l3.
Proof.
  induction 1 as [|a l1 l2 H IH|a l1 l2 H IH|a l1 l2 H IH]; intros l3 H23.
  - exact H23.
  - inversion H23; subst; auto with alerts.
  - inversion H23; subst; auto with alerts.
    rewrite deactivate_twice. auto with alerts.
  - auto with alerts.
Qed.

Lemma fades_origin l l' :
  fades l l' ->
  forall a', In a' l' -> exists a, In a l /\ (a' = a \/ a' = deactivate a).
Proof.
  induction 1 as [|a l l' H IH|a l l' H IH|a l l' H IH]; cbn [In].
  - intros a' [].
  - intros a' [<- | Hin]; [exists a; auto|].
    destruct (IH a' Hin) as (a0 & ? & ?). exists a0; auto.
  - intros a' [<- | Hin]; [exists a; auto|].
    destruct (IH a' Hin) as (a0 & ? & ?). exists a0; auto.
  - intros a' Hin. destruct (IH a' Hin) as (a0 & ? & ?). exists a0; auto.
Qed.

Lemma step_lifecycle ag op :
  lifecycle (alerts_of (state ag)) (alerts_of (state (step ag op))).
Proof.
  unfold lifecycle.
  destruct op as [clk sym target cond| |i|feed i]; cbn [step].
  - rewrite setPriceAlert_alerts. do 2 eexists.
    split; [reflexivity|]. split; [apply fades_refl|]. repeat constructor.
  - rewrite listAlerts_agent. exists (alerts_of (state ag)), [].
    rewrite app_nil_r. auto with alerts.
  - rewrite deleteAlert_alerts. do 2 eexists.
    split; [symmetry; apply app_nil_r|]. split; [apply fades_filter|constructor].
  - exists (alerts_of (state (checkPriceAlerts feed i ag))), [].
    rewrite app_nil_r. split; [reflexivity|]. split; [|constructor].
    destruct (check_alerts feed i ag) as [-> | ->];
      [apply fades_refl|apply fades_marked].
Qed.

Lemma step_descends base issued ag op :
  descends base issued (alerts_of (state ag)) ->
  descends base (issued ++ map newAlertId (createClocks [op]))
    (alerts_of (state (step ag op))).
Proof.
  unfold descends. intros (survivors & added & Heq & Hfade & Hadded).
  assert (Hweak : forall l,
             Forall (fun a => In (id a) issued) l ->
             Forall (fun a => In (id a)
                       (issued ++ map newAlertId (createClocks [op]))) l).
  { intros l Hl. eapply Forall_impl; [|exact Hl].
    intros a Ha. apply in_or_app. now left. }
  destruct op as [clk sym target cond| |i|feed i]; cbn [step createClocks map].
  - rewrite setPriceAlert_alerts, Heq, <- app_assoc.
    exists survivors. eexists. split; [reflexivity|]. split; [assumption|].
    apply Forall_app. split; [now apply Hweak|].
    repeat constructor. cbn [id]. apply in_or_app. right. now left.
  - rewrite listAlerts_agent. exists survivors, added. auto.
  - rewrite deleteAlert_alerts, Heq, filter_app.
    do 2 eexists. split; [reflexivity|]. split.
    + eapply fades_trans; [exact Hfade|apply fades_filter].
    + apply Hweak. apply Forall_forall. intros a Ha.
      apply filter_In in Ha. rewrite Forall_forall in Hadded. now apply Hadded.
  - destruct (check_alerts feed i ag) as [-> | ->].
    + exists survivors, added. auto.
    + rewrite Heq, map_app. do 2 eexists. split; [reflexivity|]. split.
      * eapply fades_trans; [exact Hfade|apply fades_marked].
      * apply Hweak. apply Forall_forall. intros a Ha.
        apply in_map_iff in Ha. destruct Ha as (a0 & <- & Ha0).
        rewrite markIfId_id. rewrite Forall_forall in Hadded. now apply Hadded.
Qed.

Lemma run_descends base later : forall issued ag,
  descends base issued (alerts_of (state ag)) ->
  descends base (issued ++ map newAlertId (createClocks later))
    (alerts_of (state (run later ag))).
Proof.
  induction later as [|op later IH]; intros issued ag H.
  - cbn. now rewrite app_nil_r.
  - rewrite createClocks_cons, map_app, app_assoc. cbn [run fold_left].
    apply IH. now apply step_descends.
Qed.

Lemma step_active_origin ag op a :
  In a (alerts_of (state (step ag op))) ->
  active a = true ->
  In a (alerts_of (state ag))
  \/ exists clk sym target cond,
       op = CreateAlert clk sym target cond /\ id a = newAlertId (now clk).
Proof.
  destruct op as [clk sym target cond| |i|feed i]; cbn [step].
  - rewrite setPriceAlert_alerts, in_app_iff. cbn [In].
    intros [Hin | [<- | []]] _; [now left|].
    right. now exists clk, sym, target, cond.
  - rewrite listAlerts_agent. now left.
  - rewrite deleteAlert_alerts, filter_In. intros [Hin _] _. now left.
  - destruct (check_alerts feed i ag) as [-> | ->]; [now left|].
    rewrite in_map_iff. intros (a0 & <- & Hin) Hact.
    apply markIfId_active in Hact. destruct Hact as [-> _]. now left.
Qed.

Lemma step_resolved alertId ag op :
  resolved alertId ag ->
  ~ In alertId (map newAlertId (createClocks [op])) ->
  resolved alertId (step ag op).
Proof.
  unfold resolved. intros Hres Hnew a Hin Hid.
  destruct (active a) eqn:Hact; [|reflexivity].
  destruct (step_active_origin ag op a Hin Hact)
    as [Hold | (clk & sym & target & cond & -> & Hminted)].
  - rewrite <- Hact. now apply Hres.
  - exfalso. apply Hnew. cbn [createClocks map In]. left. congruence.
Qed.

Lemma run_resolved alertId ops : forall ag,
  resolved alertId ag ->
  ~ In alertId (map newAlertId (createClocks ops)) ->
  resolved alertId (run ops ag).
Proof.
  induction ops as [|op ops IH]; intros ag Hres Hnew; [exact Hres|].
  rewrite createClocks_cons, map_app, in_app_iff in Hnew.
  cbn [run fold_left]. apply IH; [apply step_resolved|]; tauto.
Qed.

Lemma notified_resolved alertId alert price ag :
  resolved alertId (notified alertId alert price ag).
Proof.
  unfold resolved. cbn [notified state alerts_of alerts].
  intros a Hin Hid. apply in_map_iff in Hin. destruct Hin as (a0 & <- & _).
  rewrite markIfId_id in Hid. now rewrite (markIfId_hit alertId a0 Hid).
Qed.

Lemma fades_resolved alertId l l' :
  fades l l' ->
  (forall a, In a l -> id a = alertId -> active a = false) ->
  forall a', In a' l' -> id a' = alertId -> active a' = false.
Proof.
  intros Hfade Hres a' Hin Hid.
  destruct (fades_origin l l' Hfade a' Hin) as (a & Ha & [-> | ->]).
  - now apply Hres.
  - reflexivity.
Qed.

(** C7: no operation (create, list, delete, check) switches an alert back
    on: the alerts present before an operation are each kept as they are,
    switched off or removed, and only a create adds one, active.  Once a
    check has triggered for an id, a further check for that id changes
    nothing whatever the feed says; after any later operations the alerts
    left from that collection that carry the id are inactive, everything
    else in the collection was created since, and so no later listing shows
    the id unless a later create was issued it anew (another alert). *)
Theorem active_only_switches_off feed alertId ag alert price :
  find (hasId alertId) (alerts_of (state ag)) = Some alert ->
  active alert = true ->
  feed (chartUrl (symbol alert)) = FeedData (Some price) ->
  Js.falsyNumber price = false ->
  triggered alert price = true ->
  let done := checkPriceAlerts feed alertId ag in
  (forall any op,
      lifecycle (alerts_of (state any)) (alerts_of (state (step any op))))
  /\ (forall any op a,
        In a (alerts_of (state (step any op))) ->
        active a = true ->
        In a (alerts_of (state any))
        \/ exists clk sym target cond,
             op = CreateAlert clk sym target cond
             /\ id a = newAlertId (now clk))
  /\ (forall feed', checkPriceAlerts feed' alertId done = done)
  /\ (forall later,
        exists survivors added,
          alerts_of (state (run later done)) = (survivors ++ added)%list
          /\ fades (alerts_of (state done)) survivors
          /\ (forall a, In a survivors -> id a = alertId -> active a = false)
          /\ Forall (fun a => In (id a) (map newAlertId (createClocks later)))
               added)
  /\ (forall later,
        ~ In alertId (map newAlertId (createClocks later)) ->
        forall v,
          In v (listed (fst (listAlerts (run later done)))) ->
          view_id v <> alertId).
Proof.
  intros Hfind Hact Hfeed Hnum Htrig. cbv zeta.
  rewrite (check_priced feed alertId ag alert price Hfind Hact Hfeed Hnum).
  rewrite Htrig.
  pose proof (notified_resolved alertId alert price ag) as Hdone.
  split; [exact step_lifecycle|]. split; [exact step_active_origin|].
  split; [|split].
  - intros feed'. apply check_stale. right. exists (deactivate alert).
    split; [|reflexivity].
    cbn [notified state alerts_of alerts]. now apply find_map_markIfId.
  - intros later.
    destruct (run_descends
                (alerts_of (state (notified alertId alert price ag)))
                later [] (notified alertId alert price ag))
      as (survivors & added & Heq & Hfade & Hadded).
    { exists (alerts_of (state (notified alertId alert price ag))), [].
      rewrite app_nil_r. auto with alerts. }
    exists survivors, added. split; [exact Heq|]. split; [exact Hfade|].
    split; [|exact Hadded].
    exact (fades_resolved alertId _ _ Hfade Hdone).
  - intros later Hnew v Hin Hid.
    pose proof (run_resolved alertId later _ Hdone Hnew) as Hres.
    rewrite listAlerts_listed in Hin. apply in_map_iff in Hin.
    destruct Hin as (a & <- & Hin). apply filter_In in Hin.
    destruct Hin as [Hin Ha]. cbn [viewOf view_id] in Hid.
    rewrite (Hres a Hin Hid) in Ha. discriminate.
Qed.

Lemma active_only_switches_off_witness :
  let done := checkPriceAlerts (quote 11) sampleId
                (holding (sampleAlert above 10)) in
  checkPriceAlerts (quote 12) sampleId done = done
  /\ forall v,
       In v (listed (fst (listAlerts
               (run [CreateAlert laterClock "tsla" 50 below;
                     Wakeup (quote 12) sampleId; ListAlerts] done)))) ->
       view_id v <> sampleId.
Proof.
  cbv zeta.
  destruct (active_only_switches_off (quote 11) sampleId
              (holding (sampleAlert above 10)) (sampleAlert above 10)
              11%float)
    as (_ & _ & Hagain & _ & Hnever); try reflexivity.
  split; [apply Hagain|].
  apply Hnever. cbn. intros [H | []]. discriminate H.
Defined.

(** * Further properties: the session over time *)

Lemma find_hasId_some alertId l alert :
  find (hasId alertId) l = Some alert -> In alert l /\ id alert = alertId.
Proof.
  intros H. apply find_some in H. destruct H as [Hin Hid].
  split; [assumption|]. now apply String.eqb_eq.
Qed.

Lemma eventClocks_cons e evs :
  eventClocks (e :: evs) = (eventClocks [e] ++ eventClocks evs)%list.
Proof. destruct e; reflexivity. Qed.

Lemma deletedIds_cons e evs :
  deletedIds (e :: evs) = (deletedIds [e] ++ deletedIds evs)%list.
Proof. destruct e; reflexivity. Qed.

Lemma pendingWakeup_true s ag :
  pendingWakeup s ag = true ->
  In s (schedules ag) /\ callback s = "checkPriceAlerts".
Proof.
  unfold pendingWakeup. rewrite andb_true_iff, String.eqb_eq.
  intros [Hex Hcb]. split; [|assumption].
  apply existsb_exists in Hex. destruct Hex as (x & Hin & Heq).
  apply Schedule_eqb_eq in Heq. now subst x.
Qed.

Lemma wakes_payload s :
  callback s = "checkPriceAlerts" -> wakes (payload s) s = true.
Proof.
  intros H. unfold wakes. now rewrite H, !String.eqb_refl.
Qed.

Lemma wakes_same_target x s w :
  callback s = "checkPriceAlerts" ->
  wakes x (mkSchedule w "checkPriceAlerts" (payload s)) = wakes x s.
Proof. intros H. unfold wakes. cbn [callback payload]. now rewrite H. Qed.

Lemma inFlight_requested x ag w :
  length (filter (wakes x) (schedules ag ++ [w])) =
  (inFlight x ag + (if wakes x w then 1 else 0))%nat.
Proof.
  unfold inFlight. rewrite filter_app, length_app. cbn [filter].
  now destruct (wakes x w).
Qed.

(** The pending wake-ups of an alert across one delivery: the delivered one
    is used up, or it is replaced by the next one of the same alert, which
    the check then found active. *)
Lemma onWakeup_inFlight feed s ag x :
  In s (schedules ag) ->
  callback s = "checkPriceAlerts" ->
  (inFlight x (onWakeup feed s ag) + (if wakes x s then 1 else 0))%nat
    = inFlight x ag
  \/ (inFlight x (onWakeup feed s ag) = inFlight x ag
      /\ exists alert,
           find (hasId (payload s)) (alerts_of (state ag)) = Some alert
           /\ active alert = true).
Proof.
  intros Hin Hcb. unfold onWakeup.
  set (ag0 := mkAgent (state ag) (messages ag)
                (removeFirst s (schedules ag)) (fetched ag)).
  pose proof (removeFirst_count (wakes x) s (schedules ag) Hin) as Hcount.
  destruct (check_requests feed (payload s) ag0)
    as [H | (H & Hst & _ & Halert)]; cbv zeta in *.
  - left. unfold inFlight. rewrite H. cbn [schedules ag0]. lia.
  - right. split.
    + unfold inFlight at 1. rewrite H, inFlight_requested.
      rewrite (wakes_same_target x s checkInterval Hcb).
      unfold inFlight. cbn [schedules ag0]. lia.
    + rewrite Hst in Halert. exact Halert.
Qed.

Lemma onWakeup_inFlight_le feed s ag x :
  In s (schedules ag) ->
  callback s = "checkPriceAlerts" ->
  inFlight x (onWakeup feed s ag) <= inFlight x ag.
Proof.
  intros Hin Hcb.
  destruct (onWakeup_inFlight feed s ag x Hin Hcb) as [H | [H _]]; lia.
Qed.

Lemma wakes_in_positive x s l :
  In s l -> wakes x s = true -> 0 < length (filter (wakes x) l).
Proof.
  induction l as [|y l IH]; cbn [In filter]; [tauto|].
  intros [-> | Hin] Hw.
  - rewrite Hw. cbn. lia.
  - specialize (IH Hin Hw). destruct (wakes x y); cbn [length]; lia.
Qed.

Lemma setPriceAlert_inFlight clk sym target cond ag x :
  inFlight x (snd (setPriceAlert clk sym target cond ag)) =
  (inFlight x ag + (if String.eqb (newAlertId (now clk)) x then 1 else 0))%nat.
Proof.
  unfold inFlight at 1. cbn [setPriceAlert snd schedule schedules id setState].
  rewrite inFlight_requested. unfold wakes. cbn [callback payload].
  reflexivity.
Qed.

Lemma handle_schedules_kept se e :
  match e with
  | EvListAlerts | EvDeleteAlert _ | EvScheduleTask _ _ | EvTask _ =>
      schedules (agent (handle se e)) = schedules (agent se)
  | _ => True
  end.
Proof.
  destruct e as [clk sym target cond| |i|w d|feed s|k]; cbn [handle agent];
    auto.
  - now rewrite listAlerts_agent.
  - apply deleteAlert_frame.
  - now destruct w.
  - now destruct (nth_error (tasks se) k).
Qed.

Lemma handle_wakeupsBounded issued se e :
  wakeupsBounded issued (agent se) ->
  NoDup (issued ++ eventClocks [e]) ->
  wakeupsBounded (issued ++ eventClocks [e]) (agent (handle se e)).
Proof.
  intros Hinv Hnd.
  assert (Hkeep : schedules (agent (handle se e)) = schedules (agent se) ->
                  wakeupsBounded (issued ++ eventClocks [e])
                    (agent (handle se e))).
  { intros Hs x. unfold inFlight. rewrite Hs. destruct (Hinv x) as [H1 H2].
    split; [exact H1|]. intros Hpos. rewrite map_app. apply in_or_app.
    left. now apply H2. }
  pose proof (handle_schedules_kept se e) as Hk.
  destruct e as [clk sym target cond| |i|w d|feed s|k]; auto.
  - intros x. cbn [handle agent eventClocks].
    rewrite setPriceAlert_inFlight. destruct (Hinv x) as [H1 H2].
    rewrite map_app, in_app_iff. cbn [map In].
    destruct (String.eqb_spec (newAlertId (now clk)) x) as [E|E].
    + assert (Hzero : inFlight x (agent se) = 0%nat).
      { destruct (inFlight x (agent se)) eqn:Hn; [reflexivity|exfalso].
        assert (Hin : In x (map newAlertId issued)) by (apply H2; lia).
        rewrite <- E in Hin. apply in_map_iff in Hin.
        destruct Hin as (z & Hz & Hin). apply newAlertId_inj in Hz. subst z.
        apply NoDup_remove_2 in Hnd. apply Hnd. now rewrite app_nil_r. }
      rewrite Hzero. split; [lia|]. intros _. right. now left.
    + rewrite Nat.add_0_r. split; [exact H1|]. intros Hpos. left. now apply H2.
  - destruct (pendingWakeup s (agent se)) eqn:Hp.
    2: { apply Hkeep. cbn [handle]. now rewrite Hp. }
    cbn [handle]. rewrite Hp.
    apply pendingWakeup_true in Hp. destruct Hp as [Hin Hcb].
    intros x. cbn [agent eventClocks]. rewrite app_nil_r.
    destruct (Hinv x) as [H1 H2].
    pose proof (onWakeup_inFlight_le feed s (agent se) x Hin Hcb) as Hle.
    split; [lia|]. intros Hpos. apply H2. lia.
Qed.

Lemma play_wakeupsBounded evs : forall issued se,
  wakeupsBounded issued (agent se) ->
  NoDup (issued ++ eventClocks evs) ->
  wakeupsBounded (issued ++ eventClocks evs) (agent (play evs se)).
Proof.
  induction evs as [|e evs IH]; intros issued se Hinv Hnd.
  - cbn. now rewrite app_nil_r.
  - rewrite eventClocks_cons, app_assoc in *. cbn [play fold_left].
    apply IH; [|exact Hnd]. apply handle_wakeupsBounded; [exact Hinv|].
    now apply NoDup_app_remove_r in Hnd.
Qed.

(** X1: starting from the initial agent, whatever tools are called and
    whatever the timer delivers, at most one wake-up per alert id is in
    flight and only ids issued by a create have one, provided the creates
    read pairwise distinct clock values.  A create always puts one more
    wake-up in flight for its id, so a create that reads the clock value
    of an alert still being watched breaks the bound. *)
Theorem one_wakeup_per_alert_from_start evs :
  NoDup (eventClocks evs) ->
  (forall x,
      inFlight x (agent (play evs startSession)) <= 1
      /\ (0 < inFlight x (agent (play evs startSession)) ->
          In x (map newAlertId (eventClocks evs))))
  /\ (forall se clk sym target cond,
        inFlight (newAlertId (now clk))
          (agent (handle se (EvSetPriceAlert clk sym target cond)))
        = S (inFlight (newAlertId (now clk)) (agent se))).
Proof.
  intros Hnd. split.
  - apply (play_wakeupsBounded evs [] startSession); [|exact Hnd].
    intros x. cbn. split; [lia|]. intros H. lia.
  - intros se clk sym target cond. cbn [handle agent].
    rewrite setPriceAlert_inFlight, String.eqb_refl. lia.
Qed.

Lemma one_wakeup_per_alert_from_start_witness :
  let evs := [EvSetPriceAlert sampleClock "aapl" 100 above;
              EvWakeup (quote 90) (mkSchedule 300 "checkPriceAlerts" sampleId);
              EvSetPriceAlert laterClock "tsla" 50 below] in
  inFlight sampleId (agent (play evs startSession)) = 1%nat
  /\ forall x, inFlight x (agent (play evs startSession)) <= 1.
Proof.
  cbv zeta. split; [vm_compute; reflexivity|].
  intros x. apply one_wakeup_per_alert_from_start.
  cbn. constructor; [intros [H|[]]; discriminate H|].
  constructor; [intros []|constructor].
Defined.

Lemma onWakeup_alerts feed s ag :
  alerts_of (state (onWakeup feed s ag)) = alerts_of (state ag)
  \/ alerts_of (state (onWakeup feed s ag))
     = map (markIfId (payload s)) (alerts_of (state ag)).
Proof.
  unfold onWakeup.
  exact (check_alerts feed (payload s)
           (mkAgent (state ag) (messages ag) (removeFirst s (schedules ag))
                    (fetched ag))).
Qed.

Lemma handle_inFlight_le x se e :
  ~ In x (map newAlertId (eventClocks [e])) ->
  inFlight x (agent (handle se e)) <= inFlight x (agent se).
Proof.
  intros Hnew. pose proof (handle_schedules_kept se e) as Hk.
  destruct e as [clk sym target cond| |i|w d|feed s|k];
    try (unfold inFlight; rewrite Hk; lia).
  - cbn [handle agent]. rewrite setPriceAlert_inFlight.
    destruct (String.eqb_spec (newAlertId (now clk)) x) as [E|E]; [|lia].
    exfalso. apply Hnew. cbn. now left.
  - cbn [handle]. destruct (pendingWakeup s (agent se)) eqn:Hp; [|lia].
    apply pendingWakeup_true in Hp. destruct Hp as [Hin Hcb].
    now apply onWakeup_inFlight_le.
Qed.

Lemma play_inFlight_le x evs : forall se,
  ~ In x (map newAlertId (eventClocks evs)) ->
  inFlight x (agent (play evs se)) <= inFlight x (agent se).
Proof.
  induction evs as [|e evs IH]; intros se Hnew; [cbn; lia|].
  rewrite eventClocks_cons, map_app, in_app_iff in Hnew.
  cbn [play fold_left]. etransitivity; [apply IH; tauto|].
  apply handle_inFlight_le. tauto.
Qed.

Lemma markIfId_miss alertId a : id a <> alertId -> markIfId alertId a = a.
Proof.
  intros H. unfold markIfId, hasId. apply String.eqb_neq in H. now rewrite H.
Qed.

(** An alert on which no wake-up is pending stays in the collection as it
    is, unless it is deleted. *)
Lemma handle_unwatched_kept alert se e :
  inFlight (id alert) (agent se) = 0%nat ->
  In alert (alerts_of (state (agent se))) ->
  ~ In (id alert) (deletedIds [e]) ->
  In alert (alerts_of (state (agent (handle se e)))).
Proof.
  intros Hquiet Hin Hdel.
  destruct e as [clk sym target cond| |i|w d|feed s|k]; cbn [handle agent].
  - rewrite setPriceAlert_alerts. apply in_or_app. now left.
  - now rewrite listAlerts_agent.
  - rewrite deleteAlert_alerts. apply filter_In. split; [assumption|].
    unfold hasId. destruct (String.eqb_spec (id alert) i) as [E|E];
      [|reflexivity].
    exfalso. apply Hdel. cbn. now left.
  - now destruct w.
  - destruct (pendingWakeup s (agent se)) eqn:Hp; [|assumption].
    apply pendingWakeup_true in Hp. destruct Hp as [Hs Hcb]. cbn [agent].
    destruct (onWakeup_alerts feed s (agent se)) as [-> | ->]; [assumption|].
    apply in_map_iff. exists alert. split; [|assumption].
    apply markIfId_miss. intros E.
    pose proof (wakes_in_positive (id alert) s _ Hs) as Hpos.
    rewrite E in Hpos. specialize (Hpos (wakes_payload s Hcb)).
    unfold inFlight in Hquiet. rewrite E in Hquiet. lia.
  - destruct (nth_error (tasks se) k); assumption.
Qed.

Lemma play_unwatched_kept alert evs : forall se,
  inFlight (id alert) (agent se) = 0%nat ->
  In alert (alerts_of (state (agent se))) ->
  ~ In (id alert) (map newAlertId (eventClocks evs)) ->
  ~ In (id alert) (deletedIds evs) ->
  inFlight (id alert) (agent (play evs se)) = 0%nat
  /\ In alert (alerts_of (state (agent (play evs se)))).
Proof.
  induction evs as [|e evs IH]; intros se Hquiet Hin Hnew Hdel; [now split|].
  rewrite eventClocks_cons, map_app, in_app_iff in Hnew.
  rewrite deletedIds_cons, in_app_iff in Hdel.
  cbn [play fold_left]. apply IH; try tauto.
  - assert (Hle : inFlight (id alert) (agent (handle se e))
                  <= inFlight (id alert) (agent se))
      by (apply handle_inFlight_le; tauto).
    lia.
  - apply handle_unwatched_kept; tauto.
Qed.

(** X2: when the delivered wake-up was the only one pending for an active
    alert and its check obtains no price (the request throws, or the price
    is missing, 0 or NaN), no wake-up for that alert is pending afterwards
    and none ever will be, whatever tools are called and whatever the timer
    delivers later, as long as no create is issued the same id; and until
    the alert is deleted [listAlerts] keeps showing it as active. *)
Theorem failed_check_leaves_alert_dormant feed s ag ts alert later :
  pendingWakeup s ag = true ->
  inFlight (payload s) ag = 1%nat ->
  find (hasId (payload s)) (alerts_of (state ag)) = Some alert ->
  active alert = true ->
  (feed (chartUrl (symbol alert)) = FeedThrows
   \/ exists v, feed (chartUrl (symbol alert)) = FeedData v
                /\ Js.falsy v = true) ->
  ~ In (payload s) (map newAlertId (eventClocks later)) ->
  ~ In (payload s) (deletedIds later) ->
  let final := agent (play (EvWakeup feed s :: later) (mkSession ag ts)) in
  inFlight (payload s) final = 0%nat
  /\ In (viewOf alert) (listed (fst (listAlerts final))).
Proof.
  intros Hp Hone Hfind Hact Hfeed Hnew Hdel. cbv zeta.
  cbn [play fold_left handle agent]. rewrite Hp.
  destruct (pendingWakeup_true s ag Hp) as [Hin Hcb].
  destruct (find_hasId_some _ _ _ Hfind) as [Halert Hid].
  fold (play later (mkSession (onWakeup feed s ag) ts)).
  assert (Hafter : inFlight (payload s) (onWakeup feed s ag) = 0%nat
                   /\ In alert (alerts_of (state (onWakeup feed s ag)))).
  { unfold onWakeup.
    rewrite (check_no_price feed (payload s)
               (mkAgent (state ag) (messages ag)
                        (removeFirst s (schedules ag)) (fetched ag))
               alert Hfind Hact Hfeed).
    cbn [fetch state]. split; [|assumption].
    pose proof (removeFirst_count (wakes (payload s)) s (schedules ag) Hin)
      as Hcount.
    rewrite (wakes_payload s Hcb) in Hcount.
    unfold inFlight in *. cbn [fetch schedules]. lia. }
  destruct Hafter as [Hquiet Hkept]. rewrite <- Hid in *.
  destruct (play_unwatched_kept alert later
              (mkSession (onWakeup feed s ag) ts) Hquiet Hkept Hnew Hdel)
    as [Hzero Hstill].
  split; [exact Hzero|].
  rewrite listAlerts_listed. apply in_map. apply filter_In. now split.
Qed.

Lemma failed_check_leaves_alert_dormant_witness :
  let s := mkSchedule 300 "checkPriceAlerts" sampleId in
  let final :=
    agent (play [EvWakeup feedDown s;
                 EvSetPriceAlert laterClock "tsla" 50 below;
                 EvWakeup (quote 11) s;
                 EvListAlerts]
             (mkSession (holding (sampleAlert above 10)) [])) in
  inFlight sampleId final = 0%nat
  /\ In (viewOf (sampleAlert above 10)) (listed (fst (listAlerts final))).
Proof.
  cbv zeta.
  apply (failed_check_leaves_alert_dormant feedDown
           (mkSchedule 300 "checkPriceAlerts" sampleId)
           (holding (sampleAlert above 10)) [] (sampleAlert above 10)
           [EvSetPriceAlert laterClock "tsla" 50 below;
            EvWakeup (quote 11) (mkSchedule 300 "checkPriceAlerts" sampleId);
            EvListAlerts]).
  - reflexivity.
  - reflexivity.
  - reflexivity.
  - reflexivity.
  - left. reflexivity.
  - cbn. intros [H | []]. discriminate H.
  - cbn. intros [].
Defined.

Lemma handle_absent x se e :
  ~ In x (map id (alerts_of (state (agent se)))) ->
  ~ In x (map newAlertId (eventClocks [e])) ->
  ~ In x (map id (alerts_of (state (agent (handle se e))))).
Proof.
  intros Habs Hnew.
  destruct e as [clk sym target cond| |i|w d|feed s|k]; cbn [handle agent].
  - rewrite setPriceAlert_alerts, map_app, in_app_iff. cbn [map In id].
    intros [H | [H | []]]; [tauto|]. apply Hnew. cbn. now left.
  - now rewrite listAlerts_agent.
  - rewrite deleteAlert_alerts. intros H. apply Habs.
    apply in_map_iff in H. destruct H as (a & Ha & Hin).
    apply filter_In in Hin. apply in_map_iff. exists a. tauto.
  - now destruct w.
  - destruct (pendingWakeup s (agent se)); [|assumption]. cbn [agent].
    destruct (onWakeup_alerts feed s (agent se)) as [-> | ->];
      [assumption|now rewrite map_id_marked].
  - destruct (nth_error (tasks se) k); assumption.
Qed.

Lemma play_absent x evs : forall se,
  ~ In x (map id (alerts_of (state (agent se)))) ->
  ~ In x (map newAlertId (eventClocks evs)) ->
  ~ In x (map id (alerts_of (state (agent (play evs se))))).
Proof.
  induction evs as [|e evs IH]; intros se Habs Hnew; [assumption|].
  rewrite eventClocks_cons, map_app, in_app_iff in Hnew.
  cbn [play fold_left]. apply IH; [apply handle_absent|]; tauto.
Qed.

(** X3: [deleteAlert] cancels no wake-up: those pending for the deleted id
    stay pending.  From then on, whatever tools are called and whatever the
    timer delivers, as long as no create is issued the same id, the id
    stays out of the collection, its pending wake-ups never grow in number,
    and each one delivered is used up without touching the state or the
    transcript. *)
Theorem deleted_alert_wakeups_run_out alertId ag ts later :
  ~ In alertId (map newAlertId (eventClocks later)) ->
  let se := play later (mkSession (snd (deleteAlert alertId ag)) ts) in
  inFlight alertId (snd (deleteAlert alertId ag)) = inFlight alertId ag
  /\ ~ In alertId (map id (alerts_of (state (agent se))))
  /\ inFlight alertId (agent se) <= inFlight alertId ag
  /\ (forall feed s,
        pendingWakeup s (agent se) = true ->
        payload s = alertId ->
        state (agent (handle se (EvWakeup feed s))) = state (agent se)
        /\ messages (agent (handle se (EvWakeup feed s))) = messages (agent se)
        /\ S (inFlight alertId (agent (handle se (EvWakeup feed s))))
           = inFlight alertId (agent se)).
Proof.
  intros Hnew. cbv zeta.
  assert (Hsame : inFlight alertId (snd (deleteAlert alertId ag))
                  = inFlight alertId ag).
  { unfold inFlight. destruct (deleteAlert_frame alertId ag) as (_ & -> & _).
    reflexivity. }
  assert (Habs : ~ In alertId
                   (map id (alerts_of (state (agent
                      (play later (mkSession (snd (deleteAlert alertId ag)) ts))))))).
  { apply play_absent; [|exact Hnew]. cbn [agent].
    rewrite deleteAlert_alerts. apply find_hasId_none, find_hasId_filtered. }
  split; [exact Hsame|]. split; [exact Habs|]. split.
  - rewrite <- Hsame.
    exact (play_inFlight_le alertId later
             (mkSession (snd (deleteAlert alertId ag)) ts) Hnew).
  - intros feed s Hp Hpay.
    set (se := play later (mkSession (snd (deleteAlert alertId ag)) ts)) in *.
    cbn [handle]. rewrite Hp. cbn [agent].
    destruct (pendingWakeup_true s (agent se) Hp) as [Hin Hcb].
    unfold onWakeup. rewrite check_stale.
    + cbn [state messages]. split; [reflexivity|]. split; [reflexivity|].
      pose proof (removeFirst_count (wakes alertId) s (schedules (agent se)) Hin)
        as Hcount.
      rewrite <- Hpay in Hcount at 3. rewrite (wakes_payload s Hcb) in Hcount.
      unfold inFlight. cbn [schedules]. lia.
    + left. cbn [state]. rewrite Hpay. now apply find_hasId_none.
Qed.

Lemma deleted_alert_wakeups_run_out_witness :
  let s := mkSchedule 300 "checkPriceAlerts" sampleId in
  let se := play [EvSetPriceAlert laterClock "tsla" 50 below]
              (mkSession (snd (deleteAlert sampleId
                                 (holding (sampleAlert above 10)))) []) in
  inFlight sampleId (agent se) <= 1
  /\ inFlight sampleId (agent (handle se (EvWakeup (quote 11) s))) = 0%nat.
Proof.
  cbv zeta.
  destruct (deleted_alert_wakeups_run_out sampleId
              (holding (sampleAlert above 10)) []
              [EvSetPriceAlert laterClock "tsla" 50 below])
    as (_ & _ & Hle & Hused).
  - cbn. intros [H | []]. discriminate H.
  - split; [exact Hle|].
    destruct (Hused (quote 11) (mkSchedule 300 "checkPriceAlerts" sampleId))
      as (_ & _ & Hcount); [reflexivity|reflexivity|].
    assert (Hone : inFlight sampleId (holding (sampleAlert above 10)) = 1%nat)
      by reflexivity.
    cbv zeta in Hle. lia.
Defined.

Lemma active_marked_le alertId l :
  length (filter (fun a => active a) (map (markIfId alertId) l))
  <= length (filter (fun a => active a) l).
Proof.
  induction l as [|a l IH]; cbn [map filter]; [lia|].
  unfold markIfId at 1. destruct (hasId alertId a).
  - cbn [deactivate active]. destruct (active a); cbn [length]; lia.
  - destruct (active a); cbn [length]; lia.
Qed.

Lemma active_marked_lt alertId l alert :
  find (hasId alertId) l = Some alert ->
  active alert = true ->
  S (length (filter (fun a => active a) (map (markIfId alertId) l)))
  <= length (filter (fun a => active a) l).
Proof.
  induction l as [|a l IH]; cbn [find map filter]; [discriminate|].
  unfold markIfId at 1. destruct (hasId alertId a).
  - intros [= ->] Hact. cbn [deactivate active]. rewrite Hact. cbn [length].
    pose proof (active_marked_le alertId l). lia.
  - intros Hfind Hact. specialize (IH Hfind Hact).
    destruct (active a); cbn [length]; lia.
Qed.

Lemma active_filtered_le (f : PriceAlert -> bool) l :
  length (filter (fun a => active a) (filter f l))
  <= length (filter (fun a => active a) l).
Proof.
  induction l as [|a l IH]; cbn [filter]; [lia|].
  destruct (f a); cbn [filter]; destruct (active a); cbn [length]; lia.
Qed.

Lemma check_counts feed alertId ag :
  (notificationCount (checkPriceAlerts feed alertId ag)
   + activeCount (checkPriceAlerts feed alertId ag))%nat
  <= (notificationCount ag + activeCount ag)%nat.
Proof.
  unfold notificationCount, activeCount.
  destruct (check_outcome feed alertId ag) as [| | alert price Hfind Hact|];
    cbn [fetch rescheduled notified state messages alerts_of alerts]; try lia.
  rewrite filter_app, length_app. cbn [filter isAssistant role length].
  pose proof (active_marked_lt alertId _ alert Hfind Hact). lia.
Qed.

Lemma handle_counts se e :
  (notificationCount (agent (handle se e)) + activeCount (agent (handle se e)))%nat
  <= (notificationCount (agent se) + activeCount (agent se)
      + length (eventClocks [e]))%nat.
Proof.
  destruct e as [clk sym target cond| |i|w d|feed s|k];
    cbn [handle agent eventClocks length].
  - unfold notificationCount, activeCount. rewrite setPriceAlert_alerts.
    rewrite filter_app, length_app. cbn. lia.
  - rewrite listAlerts_agent. lia.
  - unfold notificationCount, activeCount.
    destruct (deleteAlert_frame i (agent se)) as (-> & _).
    rewrite deleteAlert_alerts.
    pose proof (active_filtered_le (fun a => negb (hasId i a))
                  (alerts_of (state (agent se)))). lia.
  - destruct w; cbn; lia.
  - destruct (pendingWakeup s (agent se)); [|lia]. cbn [agent].
    unfold onWakeup.
    pose proof (check_counts feed (payload s)
                  (mkAgent (state (agent se)) (messages (agent se))
                     (removeFirst s (schedules (agent se)))
                     (fetched (agent se)))) as H.
    unfold notificationCount, activeCount in *. cbn [state messages] in H. lia.
  - destruct (nth_error (tasks se) k); [|lia]. cbn [agent].
    unfold notificationCount, activeCount, executeTask.
    cbn [saveMessages state messages].
    rewrite filter_app, length_app. cbn. lia.
Qed.

(** X4: whatever tools are called and whatever the timer delivers, the
    notifications in the transcript and the alerts still active together
    grow by at most the number of creates: every notification has cost an
    active alert.  From the initial agent, no more notifications are ever
    delivered than alerts were created. *)
Theorem notifications_bounded_by_creates evs :
  (forall se,
      (notificationCount (agent (play evs se))
       + activeCount (agent (play evs se)))%nat
      <= (notificationCount (agent se) + activeCount (agent se)
          + length (eventClocks evs))%nat)
  /\ (notificationCount (agent (play evs startSession))
      + activeCount (agent (play evs startSession)))%nat
     <= length (eventClocks evs).
Proof.
  assert (H : forall se,
             (notificationCount (agent (play evs se))
              + activeCount (agent (play evs se)))%nat
             <= (notificationCount (agent se) + activeCount (agent se)
                 + length (eventClocks evs))%nat).
  { induction evs as [|e evs IH]; intros se; [cbn; lia|].
    rewrite eventClocks_cons, length_app.
    change (play (e :: evs) se) with (play evs (handle se e)).
    specialize (IH (handle se e)). pose proof (handle_counts se e). lia. }
  split; [exact H|apply (H startSession)].
Qed.

Lemma handle_transcript se e :
  exists added,
    messages (agent (handle se e)) = (messages (agent se) ++ added)%list
    /\ Forall (fun m =>
                (exists alert price,
                    m = mkMessage assistant (alertText alert price))
                \/ (exists description,
                       m = mkMessage user
                             [Js.Lit ("Running scheduled task: "
                                      ++ description)]))
         added.
Proof.
  assert (Hsame : forall ag' : Agent,
             messages ag' = messages (agent se) ->
             exists added,
               messages ag' = (messages (agent se) ++ added)%list
               /\ Forall (fun m =>
                           (exists alert price,
                               m = mkMessage assistant (alertText alert price))
                           \/ (exists description,
                                  m = mkMessage user
                                        [Js.Lit ("Running scheduled task: "
                                                 ++ description)]))
                    added).
  { intros ag' H. exists []. rewrite app_nil_r. split; [exact H|constructor]. }
  destruct e as [clk sym target cond| |i|w d|feed s|k]; cbn [handle agent].
  - now apply Hsame.
  - apply Hsame. now rewrite listAlerts_agent.
  - apply Hsame. apply deleteAlert_frame.
  - apply Hsame. now destruct w.
  - destruct (pendingWakeup s (agent se)); [|now apply Hsame]. cbn [agent].
    unfold onWakeup.
    destruct (check_outcome feed (payload s)
                (mkAgent (state (agent se)) (messages (agent se))
                   (removeFirst s (schedules (agent se)))
                   (fetched (agent se))))
      as [| |alert price|]; try (now apply Hsame).
    cbn [notified messages]. eexists. split; [reflexivity|].
    constructor; [|constructor]. left. now exists alert, price.
  - destruct (nth_error (tasks se) k) as [t|]; [|now apply Hsame].
    cbn [agent executeTask saveMessages messages]. eexists.
    split; [reflexivity|]. constructor; [|constructor].
    right. now exists (task_payload t).
Qed.

(** X5: no tool call and no timer delivery removes or rewrites an entry
    of the transcript: the transcript after any events is the transcript
    before followed by added entries, each an alert notification (from the
    assistant) or the announcement of a delivered task (from the user). *)
Theorem transcript_only_grows evs se :
  exists added,
    messages (agent (play evs se)) = (messages (agent se) ++ added)%list
    /\ Forall (fun m =>
                (exists alert price,
                    m = mkMessage assistant (alertText alert price))
                \/ (exists description,
                       m = mkMessage user
                             [Js.Lit ("Running scheduled task: "
                                      ++ description)]))
         added.
Proof.
  revert se. induction evs as [|e evs IH]; intros se.
  - exists []. rewrite app_nil_r. split; [reflexivity|constructor].
  - change (play (e :: evs) se) with (play evs (handle se e)).
    destruct (IH (handle se e)) as (later & Hlater & Hall).
    destruct (handle_transcript se e) as (first & Hfirst & Hall1).
    exists (first ++ later)%list. split.
    + now rewrite Hlater, Hfirst, app_assoc.
    + apply Forall_app. now split.
Qed.

(** * Further properties: the market-data tools *)

Lemma lower_upper_ascii c :
  JsText.lower_ascii (Js.upper_ascii c) = JsText.lower_ascii c.
Proof.
  destruct c as [[] [] [] [] [] [] [] []]; reflexivity.
Qed.

Lemma lower_lower_ascii c :
  JsText.lower_ascii (JsText.lower_ascii c) = JsText.lower_ascii c.
Proof.
  destruct c as [[] [] [] [] [] [] [] []]; reflexivity.
Qed.

Lemma lower_space_ascii c :
  JsText.isSpace c = true -> JsText.lower_ascii c = c.
Proof.
  destruct c as [[] [] [] [] [] [] [] []]; cbn; intros H;
    first [reflexivity | discriminate H].
Qed.

Lemma toLowerCase_app a b :
  JsText.toLowerCase (a ++ b) = JsText.toLowerCase a ++ JsText.toLowerCase b.
Proof.
  induction a as [|c a IH]; cbn [append JsText.toLowerCase];
    [reflexivity|now rewrite IH].
Qed.

Lemma toLowerCase_upper s :
  JsText.toLowerCase (Js.toUpperCase s) = JsText.toLowerCase s.
Proof.
  induction s as [|c s IH]; cbn [Js.toUpperCase JsText.toLowerCase];
    [reflexivity|now rewrite lower_upper_ascii, IH].
Qed.

Lemma toLowerCase_lower s :
  JsText.toLowerCase (JsText.toLowerCase s) = JsText.toLowerCase s.
Proof.
  induction s as [|c s IH]; cbn [JsText.toLowerCase];
    [reflexivity|now rewrite lower_lower_ascii, IH].
Qed.

Lemma toLowerCase_spaces s :
  JsText.allSpaces s = true -> JsText.toLowerCase s = s.
Proof.
  induction s as [|c s IH]; cbn [JsText.allSpaces JsText.toLowerCase];
    [reflexivity|].
  intros H. apply andb_true_iff in H. destruct H as [Hc Hs].
  now rewrite (lower_space_ascii c Hc), IH.
Qed.

Lemma trimStart_spaces ws s :
  JsText.allSpaces ws = true -> JsText.trimStart (ws ++ s) = JsText.trimStart s.
Proof.
  induction ws as [|c ws IH]; cbn [JsText.allSpaces append]; [reflexivity|].
  intros H. apply andb_true_iff in H. destruct H as [Hc Hs].
  cbn [JsText.trimStart]. rewrite Hc. now apply IH.
Qed.

Lemma trimEnd_all_spaces ws :
  JsText.allSpaces ws = true -> JsText.trimEnd ws = "".
Proof.
  induction ws as [|c ws IH]; cbn [JsText.allSpaces JsText.trimEnd];
    [reflexivity|].
  intros H. apply andb_true_iff in H. destruct H as [Hc Hs].
  now rewrite (IH Hs), Hc.
Qed.

Lemma trimEnd_spaces s ws :
  JsText.allSpaces ws = true -> JsText.trimEnd (s ++ ws) = JsText.trimEnd s.
Proof.
  intros Hws. induction s as [|c s IH]; cbn [append].
  - now apply trimEnd_all_spaces.
  - cbn [JsText.trimEnd]. now rewrite IH.
Qed.

Lemma trim_padded before s after :
  JsText.allSpaces before = true ->
  JsText.allSpaces after = true ->
  JsText.trim (before ++ s ++ after) = JsText.trim s.
Proof.
  intros Hb Ha. unfold JsText.trim. rewrite (trimStart_spaces before _ Hb).
  clear Hb before. induction s as [|c s IH]; cbn [append].
  - assert (Hnone : JsText.trimStart after = "").
    { clear -Ha. induction after as [|c r IH]; [reflexivity|].
      cbn [JsText.allSpaces] in Ha. apply andb_true_iff in Ha.
      destruct Ha as [Hc Hr]. cbn [JsText.trimStart]. rewrite Hc. auto. }
    now rewrite Hnone.
  - cbn [JsText.trimStart]. destruct (JsText.isSpace c); [exact IH|].
    exact (trimEnd_spaces (String c s) after Ha).
Qed.

Lemma cleanName_padded before coin after :
  JsText.allSpaces before = true ->
  JsText.allSpaces after = true ->
  cleanName (before ++ coin ++ after) = cleanName coin.
Proof.
  intros Hb Ha. unfold cleanName. rewrite !toLowerCase_app.
  rewrite (toLowerCase_spaces before Hb), (toLowerCase_spaces after Ha).
  now apply trim_padded.
Qed.

Lemma cryptoSymbol_by_cleanName c1 c2 :
  cleanName c1 = cleanName c2 -> cryptoSymbol c1 = cryptoSymbol c2.
Proof. unfold cryptoSymbol. now intros ->. Qed.

Lemma getCryptoPrice_requests config http coin :
  snd (getCryptoPrice config http coin) =
  if JsText.isEmpty (alpacaApiKey config)
     || JsText.isEmpty (alpacaSecretKey config)
  then []
  else [mkRequest (cryptoUrl (cryptoSymbol coin))
          (alpacaHeaders (alpacaApiKey config) (alpacaSecretKey config))].
Proof.
  unfold getCryptoPrice.
  now destruct (JsText.isEmpty (alpacaApiKey config)
                || JsText.isEmpty (alpacaSecretKey config)).
Qed.

(** X6: which pair [getCryptoPrice] asks for does not depend on the case
    of the coin name nor on white space around it: "BTC", " Bitcoin " and
    "bitcoin" resolve alike, and the request made is the same. *)
Theorem cryptoSymbol_ignores_case_and_padding coin before after :
  JsText.allSpaces before = true ->
  JsText.allSpaces after = true ->
  cryptoSymbol (before ++ coin ++ after) = cryptoSymbol coin
  /\ cryptoSymbol (Js.toUpperCase coin) = cryptoSymbol coin
  /\ cryptoSymbol (JsText.toLowerCase coin) = cryptoSymbol coin
  /\ (forall config http,
        snd (getCryptoPrice config http
               (before ++ Js.toUpperCase coin ++ after))
        = snd (getCryptoPrice config http coin)).
Proof.
  intros Hb Ha.
  assert (Hup : cleanName (Js.toUpperCase coin) = cleanName coin)
    by (unfold cleanName; now rewrite toLowerCase_upper).
  assert (Hlow : cleanName (JsText.toLowerCase coin) = cleanName coin)
    by (unfold cleanName; now rewrite toLowerCase_lower).
  split; [|split; [|split]].
  - apply cryptoSymbol_by_cleanName. now apply cleanName_padded.
  - now apply cryptoSymbol_by_cleanName.
  - now apply cryptoSymbol_by_cleanName.
  - intros config http. rewrite !getCryptoPrice_requests.
    rewrite (cryptoSymbol_by_cleanName
               (before ++ Js.toUpperCase coin ++ after) coin); [reflexivity|].
    now rewrite cleanName_padded.
Qed.

Lemma cryptoSymbol_ignores_case_and_padding_witness :
  cryptoSymbol "  BitCoin " = Ticker "BTC/USD"
  /\ cryptoSymbol "  BitCoin " = cryptoSymbol "BitCoin".
Proof.
  split; [reflexivity|].
  apply (cryptoSymbol_ignores_case_and_padding "BitCoin" "  " " ");
    reflexivity.
Defined.




Lemma getPriceChange_requests http symbol period :
  snd (getPriceChange http symbol period) =
  [mkRequest (rangeUrl (Js.toUpperCase symbol) period) []].
Proof. reflexivity. Qed.

(** X8: the Alpaca keys leave the worker only towards
    [data.alpaca.markets]: [getCryptoPrice] makes no request at all while a
    key is empty (in particular when a secret is unset or empty in the
    environment from which [onChatMessage] sets the keys) and otherwise
    exactly one,
    to the crypto trades URL of the resolved symbol, carrying the two keys;
    [getPriceChange] always makes exactly one request, to the Yahoo chart
    URL of the upper-cased symbol and period, without any header. *)
Theorem market_requests_carry_keys_only_to_alpaca config http :
  (forall coin,
      (JsText.isEmpty (alpacaApiKey config)
       || JsText.isEmpty (alpacaSecretKey config) = true ->
       getCryptoPrice config http coin
       = (CryptoText "Alpaca API keys not configured.", []))
      /\ (JsText.isEmpty (alpacaApiKey config)
          || JsText.isEmpty (alpacaSecretKey config) = false ->
          snd (getCryptoPrice config http coin)
          = [mkRequest
               ("https://data.alpaca.markets/v1beta3/crypto/us/latest/trades?symbols="
                ++ symbolText (cryptoSymbol coin))
               [("APCA-API-KEY-ID", alpacaApiKey config);
                ("APCA-API-SECRET-KEY", alpacaSecretKey config)]]))
  /\ (forall env current coin,
        In (ALPACA_API_KEY env) [None; Some ""]
        \/ In (ALPACA_SECRET_KEY env) [None; Some ""] ->
        getCryptoPrice (configureFromEnv env current) http coin
        = (CryptoText "Alpaca API keys not configured.", []))
  /\ (forall symbol period,
        snd (getPriceChange http symbol period)
        = [mkRequest
             ("https://query1.finance.yahoo.com/v8/finance/chart/"
              ++ Js.toUpperCase symbol ++ "?interval=1d&range="
              ++ Period_text period)
             []]).
Proof.
  assert (Hguard : forall cfg coin,
             JsText.isEmpty (alpacaApiKey cfg)
             || JsText.isEmpty (alpacaSecretKey cfg) = true ->
             getCryptoPrice cfg http coin
             = (CryptoText "Alpaca API keys not configured.", [])).
  { intros cfg coin H. unfold getCryptoPrice. now rewrite H. }
  split; [|split].
  - intros coin. split; [apply Hguard|].
    intros H. rewrite getCryptoPrice_requests, H. reflexivity.
  - intros env current coin Hunset. apply Hguard.
    unfold configureFromEnv, setApiConfig. cbn [alpacaApiKey alpacaSecretKey].
    destruct Hunset as [[<- | [<- | []]] | [<- | [<- | []]]];
      cbn [orEmpty JsText.isEmpty]; first [reflexivity | apply orb_true_r].
  - intros symbol period. apply getPriceChange_requests.
Qed.

Lemma market_requests_carry_keys_only_to_alpaca_witness :
  let http : Http := fun _ => Rejected in
  getCryptoPrice (configureFromEnv (mkEnv (Some "key") None) apiConfig)
    http "btc"
  = (CryptoText "Alpaca API keys not configured.", [])
  /\ snd (getCryptoPrice (mkApiConfig "key" "secret") http "btc")
     = [mkRequest
          "https://data.alpaca.markets/v1beta3/crypto/us/latest/trades?symbols=BTC/USD"
          [("APCA-API-KEY-ID", "key"); ("APCA-API-SECRET-KEY", "secret")]].
Proof.
  cbv zeta.
  destruct (market_requests_carry_keys_only_to_alpaca
              (mkApiConfig "key" "secret") (fun _ => Rejected))
    as (Hcrypto & Henv & _).
  split.
  - apply Henv. right. left. reflexivity.
  - apply (proj2 (Hcrypto "btc")). reflexivity.
Defined.

Lemma first_valid_close nulls c rest :
  forallb Json.isNull nulls = true ->
  nth_error
    (filter (fun v => negb (Json.isNull v)) (nulls ++ Json.Number c :: rest)) 0
  = Some (Json.Number c).
Proof.
  induction nulls as [|v nulls IH]; cbn [forallb app filter]; [reflexivity|].
  intros H. apply andb_true_iff in H. destruct H as [Hv Hn].
  rewrite Hv. cbn [negb]. now apply IH.
Qed.

Lemma no_valid_close items :
  forallb Json.isNull items = true ->
  filter (fun v => negb (Json.isNull v)) items = [].
Proof.
  induction items as [|v items IH]; cbn [forallb filter]; [reflexivity|].
  intros H. apply andb_true_iff in H. destruct H as [Hv Hn].
  rewrite Hv. cbn [negb]. now apply IH.
Qed.

(** X9: when Yahoo answers with closes and a market price,
    [getPriceChange] measures the change from the first close that is not
    [null]: [null] closes before it are skipped and the closes after it
    play no part.  When the closes are present but all [null], the tool
    ends in its [catch] answer, whereas an empty list of closes gives
    "No data available". *)
Theorem priceChange_starts_at_first_valid_close
    http symbol period response data :
  http (mkRequest (rangeUrl (Js.toUpperCase symbol) period) [])
    = Resolved response ->
  body response = Parsed data ->
  Json.isNull data = false ->
  Json.truthy (Json.optMember "error" (Json.member "chart" data)) = false ->
  (forall nulls c rest m p,
      closesOf data = Some (Json.Array (nulls ++ Json.Number c :: rest)) ->
      forallb Json.isNull nulls = true ->
      metaOf data = Some m ->
      Json.member "regularMarketPrice" m = Some (Json.Number p) ->
      fst (getPriceChange http symbol period)
      = PriceChangeReport
          (changeReport (Js.toUpperCase symbol) period c p))
  /\ (forall v items,
        closesOf data = Some (Json.Array (v :: items)) ->
        forallb Json.isNull (v :: items) = true ->
        fst (getPriceChange http symbol period) = PriceChangeCaught)
  /\ (closesOf data = Some (Json.Array []) ->
      fst (getPriceChange http symbol period)
      = PriceChangeText ("No data available for " ++ Js.toUpperCase symbol)).
Proof.
  intros Hreply Hbody Hdata Herror.
  assert (Hstart : fst (getPriceChange http symbol period)
                   = priceChangeAnswer (Js.toUpperCase symbol) period
                       (Resolved response))
    by (unfold getPriceChange; cbn [fst]; now rewrite Hreply).
  rewrite Hstart. unfold priceChangeAnswer. rewrite Hbody.
  destruct data; try discriminate Hdata; (split; [|split]).
  all: try (intros nulls c rest m p Hcloses Hnulls Hmeta Hprice;
            rewrite Herror; cbv zeta; rewrite Hcloses, Hmeta;
            rewrite (first_valid_close nulls c rest Hnulls);
            destruct m; try discriminate Hprice;
            rewrite Hprice; now destruct nulls).
  all: try (intros v0 others Hcloses Hnulls;
            rewrite Herror; cbv zeta; rewrite Hcloses;
            rewrite (no_valid_close (v0 :: others) Hnulls);
            cbn [nth_error]; now destruct (metaOf _) as [[]|]).
  all: intros Hcloses; rewrite Herror; cbv zeta; now rewrite Hcloses.
Qed.

Lemma priceChange_starts_at_first_valid_close_witness :
  fst (getPriceChange
         (answering
            (sampleChart [Json.Null; Json.Number 100; Json.Number 120] 110))
         "aapl" P5d)
  = PriceChangeReport (changeReport "AAPL" P5d 100 110).
Proof.
  apply (proj1 (priceChange_starts_at_first_valid_close
                  (answering
                     (sampleChart
                        [Json.Null; Json.Number 100; Json.Number 120] 110))
                  "aapl" P5d
                  (mkResponse true 200
                     (Parsed
                        (sampleChart
                           [Json.Null; Json.Number 100; Json.Number 120] 110)))
                  (sampleChart
                     [Json.Null; Json.Number 100; Json.Number 120] 110)
                  eq_refl eq_refl eq_refl eq_refl)
           [Json.Null] 100%float [Json.Number 120]
           (Json.Object [("regularMarketPrice", Json.Number 110)])
           110%float);
    reflexivity.
Defined.

(** ** Round trips *)

Lemma nth_error_last {A} (l : list A) (x : A) :
  nth_error (l ++ [x]) (length l) = Some x.
Proof. induction l; [reflexivity|assumption]. Qed.

(** X10: a task scheduled through [scheduleTask] with a date, a delay or
    a cron expression is entered once, to call [executeTask] with the
    description; when the timer delivers it, exactly one user entry quoting
    the description is appended to the transcript and alerts and alert
    wake-ups are untouched.  With "no-schedule" nothing is entered. *)
Theorem scheduled_task_announces_its_description when description se :
  (when = NoSchedule ->
   scheduleTask when description se
   = (NotValidInput "Not a valid schedule input", se))
  /\ (when <> NoSchedule ->
      let se' := snd (scheduleTask when description se) in
      let k := length (tasks se) in
      agent se' = agent se
      /\ (exists input,
            tasks se' = (tasks se ++ [mkTask input "executeTask" description])%list
            /\ fst (scheduleTask when description se)
               = TaskScheduled (When_type when) input)
      /\ messages (agent (handle se' (EvTask k)))
         = (messages (agent se)
              ++ [mkMessage user
                    [Js.Lit ("Running scheduled task: " ++ description)]])%list
      /\ state (agent (handle se' (EvTask k))) = state (agent se)
      /\ schedules (agent (handle se' (EvTask k))) = schedules (agent se)).
Proof.
  split; [now intros ->|].
  intros Hwhen. cbv zeta.
  destruct when as [|date|delayInSeconds|cron]; [congruence| | |];
    cbn [scheduleTask snd fst agent tasks handle];
    rewrite nth_error_last; cbn [task_payload agent executeTask saveMessages
                                   messages state schedules];
    (split; [reflexivity|]); (split; [eexists; split; reflexivity|]);
    repeat split.
Qed.

Lemma scheduled_task_announces_its_description_witness :
  let se' := snd (scheduleTask (Delayed 60) "check AAPL" startSession) in
  messages (agent (handle se' (EvTask 0)))
  = [mkMessage user [Js.Lit "Running scheduled task: check AAPL"]].
Proof.
  cbv zeta.
  destruct (proj2 (scheduled_task_announces_its_description
                     (Delayed 60) "check AAPL" startSession))
    as (_ & _ & Hm & _).
  - discriminate.
  - exact Hm.
Defined.

Lemma deleteAlert_found alertId ag :
  In alertId (map id (alerts_of (state ag))) ->
  fst (deleteAlert alertId ag) = deletedText alertId.
Proof.
  intros Hin. apply hasId_count_pos in Hin.
  pose proof (hasId_split alertId (alerts_of (state ag))) as Hsplit.
  unfold deleteAlert.
  destruct (Nat.eqb_spec (length (alerts_of (state ag)))
              (length (filter (fun a => negb (hasId alertId a))
                         (alerts_of (state ag))))) as [E|E];
    [lia|reflexivity].
Qed.

Lemma filter_other_ids alertId l :
  ~ In alertId (map id l) -> filter (fun a => negb (hasId alertId a)) l = l.
Proof.
  induction l as [|a l IH]; cbn [map In filter]; [reflexivity|].
  intros H. unfold hasId at 1.
  destruct (String.eqb_spec (id a) alertId) as [E|E]; [tauto|].
  cbn [negb]. f_equal. apply IH. tauto.
Qed.

(** X11: deleting the id that a create has just returned reports the
    deletion and leaves the collection without any alert of that id: when
    the id was new to the collection, the collection is exactly what it
    was before the create; when an older alert had the same id, that one
    is removed as well.  The wake-up requested by the create stays
    pending. *)
Theorem delete_after_create clk sym target cond ag :
  let created := setPriceAlert clk sym target cond ag in
  let removed := deleteAlert (alertId (fst created)) (snd created) in
  fst removed = deletedText (alertId (fst created))
  /\ alerts_of (state (snd removed))
     = filter (fun a => negb (hasId (alertId (fst created)) a))
         (alerts_of (state ag))
  /\ (~ In (alertId (fst created)) (map id (alerts_of (state ag))) ->
      alerts_of (state (snd removed)) = alerts_of (state ag))
  /\ inFlight (alertId (fst created)) (snd removed)
     = S (inFlight (alertId (fst created)) ag).
Proof.
  cbv zeta.
  assert (Hid : alertId (fst (setPriceAlert clk sym target cond ag))
                = newAlertId (now clk)) by reflexivity.
  rewrite Hid.
  assert (Halerts :
            alerts_of (state (snd (deleteAlert (newAlertId (now clk))
                                     (snd (setPriceAlert clk sym target cond ag)))))
            = filter (fun a => negb (hasId (newAlertId (now clk)) a))
                (alerts_of (state ag))).
  { rewrite deleteAlert_alerts, setPriceAlert_alerts, filter_app.
    cbn [filter]. unfold hasId at 2. cbn [id].
    rewrite String.eqb_refl. cbn [negb]. apply app_nil_r. }
  split; [|split; [exact Halerts|split]].
  - apply deleteAlert_found. rewrite setPriceAlert_alerts, map_app.
    apply in_or_app. right. now left.
  - intros Hnew. rewrite Halerts. now apply filter_other_ids.
  - unfold inFlight at 1.
    destruct (deleteAlert_frame (newAlertId (now clk))
                (snd (setPriceAlert clk sym target cond ag))) as (_ & -> & _).
    fold (inFlight (newAlertId (now clk))
            (snd (setPriceAlert clk sym target cond ag))).
    rewrite setPriceAlert_inFlight, String.eqb_refl. lia.
Qed.

Lemma delete_after_create_witness :
  let created := setPriceAlert laterClock "tsla" 50 below
                   (holding (sampleAlert above 10)) in
  alerts_of (state (snd (deleteAlert (alertId (fst created)) (snd created))))
  = [sampleAlert above 10].
Proof.
  cbv zeta.
  destruct (delete_after_create laterClock "tsla" 50%float below
              (holding (sampleAlert above 10)))
    as (_ & _ & Hsame & _).
  rewrite Hsame; [reflexivity|].
  cbn. intros [H | []]. discriminate H.
Defined.




